(** * COBALT (CoDel-BLUE alternate AQM): a shallow embedding of cobalt.c

    The C code works on [u32] and [u64] machine integers.  They are modelled
    as [Z] with every wrap-around written out ([u32], [u64]) and with the
    conversion to the signed 64-bit type [cobalt_tdiff_t] written as [s64].
    C functions that mutate [struct cobalt_vars] through a pointer become
    functions returning the new record; the two loops of the file and the
    mutual recursion of [cobalt_vars_init] and [cobalt_cache_init] are run
    with fuel and return [None] when the fuel is used up. *)

From Stdlib Require Import ZArith Lia Bool.
From stdpp Require Import base tactics option list.

Local Open Scope Z_scope.

(** ** Machine integers *)

Module Int.

Definition u32 (x : Z) : Z := x mod 2 ^ 32.
Definition u64 (x : Z) : Z := x mod 2 ^ 64.

(** Conversion of a 64-bit pattern to the signed type (two's complement). *)
Definition s64 (x : Z) : Z :=
  let r := x mod 2 ^ 64 in
  if r <? 2 ^ 63 then r else r - 2 ^ 64.

Definition U32_MAX : Z := 2 ^ 32 - 1.

Definition is_u32 (x : Z) : Prop := 0 <= x <= U32_MAX.

End Int.
Import Int.

(** ** Data model *)

Definition NSEC_PER_MSEC : Z := 1000000.
Definition NSEC_PER_USEC : Z := 1000.

(** [#define MS2TIME(a) (a * (u64) NSEC_PER_MSEC)] and its microsecond twin. *)
Definition MS2TIME (a : Z) : Z := u64 (a * NSEC_PER_MSEC).
Definition US2TIME (a : Z) : Z := u64 (a * NSEC_PER_USEC).

(** [struct cobalt_skb_cb] *)
Record cobalt_skb_cb := { enqueue_time : Z }.

(** [struct cobalt_params] *)
Record cobalt_params := {
  interval : Z;
  target : Z;
  threshold : Z;
  p_inc : Z;
  p_dec : Z
}.

(** [struct cobalt_vars] *)
Record cobalt_vars := {
  count : Z;
  rec_inv_sqrt : Z;
  drop_next : Z;
  blue_timer : Z;
  p_drop : Z;
  dropping : bool;
  ecn_marked : bool
}.

(** Field assignments [vars->f = x]. *)
Definition set_count (x : Z) (v : cobalt_vars) : cobalt_vars :=
  {| count := x; rec_inv_sqrt := rec_inv_sqrt v; drop_next := drop_next v;
     blue_timer := blue_timer v; p_drop := p_drop v; dropping := dropping v;
     ecn_marked := ecn_marked v |}.
Definition set_rec_inv_sqrt (x : Z) (v : cobalt_vars) : cobalt_vars :=
  {| count := count v; rec_inv_sqrt := x; drop_next := drop_next v;
     blue_timer := blue_timer v; p_drop := p_drop v; dropping := dropping v;
     ecn_marked := ecn_marked v |}.
Definition set_drop_next (x : Z) (v : cobalt_vars) : cobalt_vars :=
  {| count := count v; rec_inv_sqrt := rec_inv_sqrt v; drop_next := x;
     blue_timer := blue_timer v; p_drop := p_drop v; dropping := dropping v;
     ecn_marked := ecn_marked v |}.
Definition set_blue_timer (x : Z) (v : cobalt_vars) : cobalt_vars :=
  {| count := count v; rec_inv_sqrt := rec_inv_sqrt v; drop_next := drop_next v;
     blue_timer := x; p_drop := p_drop v; dropping := dropping v;
     ecn_marked := ecn_marked v |}.
Definition set_p_drop (x : Z) (v : cobalt_vars) : cobalt_vars :=
  {| count := count v; rec_inv_sqrt := rec_inv_sqrt v; drop_next := drop_next v;
     blue_timer := blue_timer v; p_drop := x; dropping := dropping v;
     ecn_marked := ecn_marked v |}.
Definition set_dropping (x : bool) (v : cobalt_vars) : cobalt_vars :=
  {| count := count v; rec_inv_sqrt := rec_inv_sqrt v; drop_next := drop_next v;
     blue_timer := blue_timer v; p_drop := p_drop v; dropping := x;
     ecn_marked := ecn_marked v |}.
Definition set_ecn_marked (x : bool) (v : cobalt_vars) : cobalt_vars :=
  {| count := count v; rec_inv_sqrt := rec_inv_sqrt v; drop_next := drop_next v;
     blue_timer := blue_timer v; p_drop := p_drop v; dropping := dropping v;
     ecn_marked := x |}.

(** [memset(vars, 0, sizeof( *vars))] *)
Definition vars_zero : cobalt_vars :=
  {| count := 0; rec_inv_sqrt := 0; drop_next := 0; blue_timer := 0;
     p_drop := 0; dropping := false; ecn_marked := false |}.

(** [REC_INV_SQRT_BITS] is [8 * sizeof(u32)]. *)
Definition REC_INV_SQRT_BITS : Z := 8 * 4.
Definition REC_INV_SQRT_SHIFT : Z := 32 - REC_INV_SQRT_BITS.
Definition REC_INV_SQRT_CACHE : Z := 16.

(** ** The reciprocal square root table and the Newton step *)

(** [cache[i]] for a table held as a list; the C code only reads below
    [REC_INV_SQRT_CACHE]. *)
Definition cache_at (cache : list Z) (i : Z) : Z :=
  default 0 (cache !! Z.to_nat i).

(** [cache[i] = x] *)
Definition cache_set (i : Z) (x : Z) (cache : list Z) : list Z :=
  <[Z.to_nat i := x]> cache.

(** The [else] branch of [cobalt_Newton_step]: one Newton iteration in
    Q0.32 on the estimate [est] for the counter value [cnt]. *)
Definition cobalt_Newton_general (cnt est : Z) : Z :=
  let invsqrt := u32 (Z.shiftl (u32 est) REC_INV_SQRT_SHIFT) in
  let invsqrt2 := u32 (Z.shiftr (u64 (invsqrt * invsqrt)) 32) in
  let val := u64 (Z.shiftl 3 32 - u64 (cnt * invsqrt2)) in
  let val := Z.shiftr val 2 in
  let val := Z.shiftr (u64 (val * invsqrt)) (32 - 2 + 1) in
  u32 (Z.shiftr val REC_INV_SQRT_SHIFT).

Definition cobalt_Newton_step (cache : list Z) (vars : cobalt_vars)
  : cobalt_vars :=
  if (count vars <? REC_INV_SQRT_CACHE)
     && negb (cache_at cache (count vars) =? 0)
  then set_rec_inv_sqrt (cache_at cache (count vars)) vars
  else set_rec_inv_sqrt
         (cobalt_Newton_general (count vars) (rec_inv_sqrt vars)) vars.

(** ** Static storage and initialisation *)

(** The file declares [cobalt_rec_inv_sqrt_cache]; [cobalt_vars_init] tests
    and sets cell 0 of [cobalt_rev_inv_sqrt_cache], a name that the file does
    not declare.  The store keeps both, and [rev_is_rec] below says whether
    the second name denotes the declared table or an object of its own. *)
Record globals := {
  cobalt_rec_inv_sqrt_cache : list Z;
  cobalt_rev_inv_sqrt_cache : list Z
}.

Definition set_rec_cache (c : list Z) (g : globals) : globals :=
  {| cobalt_rec_inv_sqrt_cache := c;
     cobalt_rev_inv_sqrt_cache := cobalt_rev_inv_sqrt_cache g |}.
Definition set_rev_cache (c : list Z) (g : globals) : globals :=
  {| cobalt_rec_inv_sqrt_cache := cobalt_rec_inv_sqrt_cache g;
     cobalt_rev_inv_sqrt_cache := c |}.

(** Static storage as the loader leaves it: [= {0}]. *)
Definition static_table : list Z := replicate 16 0.
Definition boot_globals : globals :=
  {| cobalt_rec_inv_sqrt_cache := static_table;
     cobalt_rev_inv_sqrt_cache := static_table |}.

Section Init.

Variable rev_is_rec : bool.

(** [cobalt_rev_inv_sqrt_cache[0]] *)
Definition rev_cell0 (g : globals) : Z :=
  if rev_is_rec then cache_at (cobalt_rec_inv_sqrt_cache g) 0
  else cache_at (cobalt_rev_inv_sqrt_cache g) 0.

(** [cobalt_rev_inv_sqrt_cache[0] = x] *)
Definition set_rev_cell0 (x : Z) (g : globals) : globals :=
  if rev_is_rec
  then set_rec_cache (cache_set 0 x (cobalt_rec_inv_sqrt_cache g)) g
  else set_rev_cache (cache_set 0 x (cobalt_rev_inv_sqrt_cache g)) g.

(** The [for] loop of [cobalt_cache_init], entered with [v.count] set. *)
Fixpoint cobalt_cache_loop (fuel : nat) (v : cobalt_vars) (g : globals)
  : option globals :=
  if count v <? REC_INV_SQRT_CACHE then
    match fuel with
    | O => None
    | S fuel' =>
        let v := cobalt_Newton_step (cobalt_rec_inv_sqrt_cache g) v in
        let v := cobalt_Newton_step (cobalt_rec_inv_sqrt_cache g) v in
        let v := cobalt_Newton_step (cobalt_rec_inv_sqrt_cache g) v in
        let v := cobalt_Newton_step (cobalt_rec_inv_sqrt_cache g) v in
        let g := set_rec_cache
                   (cache_set (count v) (rec_inv_sqrt v)
                      (cobalt_rec_inv_sqrt_cache g)) g in
        cobalt_cache_loop fuel' (set_count (u32 (count v + 1)) v) g
    end
  else Some g.

(** [cobalt_cache_init] after its call of [cobalt_vars_init(&v)]:
    the seed and the loop. *)
Definition cobalt_cache_build (fuel : nat) (v : cobalt_vars) (g : globals)
  : option globals :=
  let v := set_rec_inv_sqrt
             (Z.shiftr (u32 (Z.lnot 0)) REC_INV_SQRT_SHIFT) v in
  let g := set_rec_cache
             (cache_set 0 (rec_inv_sqrt v) (cobalt_rec_inv_sqrt_cache g))
             g in
  cobalt_cache_loop fuel (set_count 1 v) g.

(** [cobalt_vars_init] and [cobalt_cache_init] call each other. *)
Fixpoint cobalt_vars_init (fuel : nat) (g : globals)
  : option (cobalt_vars * globals) :=
  match fuel with
  | O => None
  | S fuel' =>
      let vars := vars_zero in
      if rev_cell0 g =? 0 then
        match cobalt_cache_init fuel' g with
        | None => None
        | Some g' => Some (vars, set_rev_cell0 (u32 (Z.lnot 0)) g')
        end
      else Some (vars, g)
  end
with cobalt_cache_init (fuel : nat) (g : globals) : option globals :=
  match fuel with
  | O => None
  | S fuel' =>
      match cobalt_vars_init fuel' g with
      | None => None
      | Some (v, g') => cobalt_cache_build fuel' v g'
      end
  end.

End Init.


(** ** What the host supplies

    [struct sk_buff], the control block accessor [qdisc_skb_cb(skb)->data],
    [INET_ECN_set_ce], [prandom_u32] and [reciprocal_scale] belong to the
    kernel.  The packet is opaque; the generator is a state that each draw
    advances. *)
Class Host := {
  sk_buff : Type;
  qdisc_skb_cb_data : sk_buff -> cobalt_skb_cb;
  INET_ECN_set_ce : sk_buff -> bool;
  prandom_state : Type;
  prandom_u32 : prandom_state -> Z * prandom_state;
  reciprocal_scale : Z -> Z -> Z
}.

Section Cobalt.

Context {H : Host}.

Definition get_cobalt_cb (skb : sk_buff) : cobalt_skb_cb :=
  qdisc_skb_cb_data skb.

Definition cobalt_get_enqueue_time (skb : sk_buff) : Z :=
  enqueue_time (get_cobalt_cb skb).

Definition cobalt_control_law (t interval rec_inv_sqrt : Z) : Z :=
  u64 (t + reciprocal_scale interval
             (u32 (Z.shiftl rec_inv_sqrt REC_INV_SQRT_SHIFT))).

Definition cobalt_queue_full (vars : cobalt_vars) (p : cobalt_params)
    (now : Z) : cobalt_vars :=
  let vars :=
    if target p <? u64 (now - blue_timer vars) then
      let vars := set_p_drop (u32 (p_drop vars + p_inc p)) vars in
      let vars :=
        if p_drop vars <? p_inc p
        then set_p_drop (u32 (Z.lnot 0)) vars else vars in
      set_blue_timer now vars
    else vars in
  let vars := set_dropping true vars in
  let vars := set_drop_next now vars in
  if count vars =? 0 then set_count 1 vars else vars.

Definition cobalt_queue_empty (vars : cobalt_vars) (p : cobalt_params)
    (now : Z) : cobalt_vars :=
  let vars :=
    if target p <? u64 (now - blue_timer vars) then
      let vars :=
        if p_drop vars <? p_dec p
        then set_p_drop 0 vars
        else set_p_drop (u32 (p_drop vars - p_dec p)) vars in
      set_blue_timer now vars
    else vars in
  set_dropping false vars.

(** The locals of [cobalt_should_drop]. [sojourn] is signed and [target]
    unsigned, so C compares them as unsigned. *)
Definition sojourn_of (now : Z) (skb : sk_buff) : Z :=
  s64 (now - cobalt_get_enqueue_time skb).
Definition schedule_of (now : Z) (vars : cobalt_vars) : Z :=
  s64 (now - drop_next vars).
Definition over_target_of (p : cobalt_params) (now : Z) (skb : sk_buff)
  : bool :=
  target p <? u64 (sojourn_of now skb).
Definition next_due_of (now : Z) (vars : cobalt_vars) : bool :=
  negb (count vars =? 0) && (0 <=? schedule_of now vars).

(** Lines 233-242: the state transition on the sojourn time. *)
Definition codel_transition (over_target : bool) (p : cobalt_params)
    (now : Z) (vars : cobalt_vars) : cobalt_vars :=
  if over_target then
    let vars :=
      if negb (dropping vars)
      then set_drop_next (u64 (now + interval p)) (set_dropping true vars)
      else vars in
    if count vars =? 0 then set_count 1 vars else vars
  else if dropping vars then set_dropping false vars
  else vars.

(** Lines 248-252: the controller moves on after acting on a packet. *)
Definition codel_advance (cache : list Z) (p : cobalt_params)
    (vars : cobalt_vars) : cobalt_vars :=
  let vars := set_count (u32 (count vars + 1)) vars in
  let vars :=
    if count vars =? 0 then set_count (u32 (count vars - 1)) vars
    else vars in
  let vars := cobalt_Newton_step cache vars in
  set_drop_next
    (cobalt_control_law (drop_next vars) (interval p) (rec_inv_sqrt vars))
    vars.

(** Lines 255-257: the body of the resynchronisation loop. *)
Definition codel_step_back (cache : list Z) (p : cobalt_params)
    (vars : cobalt_vars) : cobalt_vars :=
  let vars := set_count (u32 (count vars - 1)) vars in
  let vars := cobalt_Newton_step cache vars in
  set_drop_next
    (cobalt_control_law (drop_next vars) (interval p) (rec_inv_sqrt vars))
    vars.

(** Lines 254-260: [while(next_due) { ... }]. *)
Fixpoint codel_resync (fuel : nat) (cache : list Z) (p : cobalt_params)
    (now : Z) (vars : cobalt_vars) (next_due : bool)
  : option cobalt_vars :=
  if next_due then
    match fuel with
    | O => None
    | S fuel' =>
        let vars := codel_step_back cache p vars in
        codel_resync fuel' cache p now vars (next_due_of now vars)
    end
  else Some vars.

(** Lines 264-265: BLUE adds a random drop, one draw when [p_drop] is
    not zero. *)
Definition blue_verdict (drop : bool) (vars : cobalt_vars)
    (rnd : prandom_state) : bool * cobalt_vars * prandom_state :=
  if negb (p_drop vars =? 0) then
    let (x, rnd') := prandom_u32 rnd in
    (drop || (x <? p_drop vars), vars, rnd')
  else (drop, vars, rnd).

Definition cobalt_should_drop (fuel : nat) (cache : list Z)
    (vars : cobalt_vars) (p : cobalt_params) (now : Z) (skb : sk_buff)
    (rnd : prandom_state) : option (bool * cobalt_vars * prandom_state) :=
  let over_target := over_target_of p now skb in
  let next_due := next_due_of now vars in
  let vars := set_ecn_marked false vars in
  let vars := codel_transition over_target p now vars in
  let codel :=
    if next_due && dropping vars then
      let marked := INET_ECN_set_ce skb in
      let vars := set_ecn_marked marked vars in
      Some (negb marked, codel_advance cache p vars)
    else
      match codel_resync fuel cache p now vars next_due with
      | None => None
      | Some vars => Some (false, vars)
      end in
  match codel with
  | None => None
  | Some (drop, vars) => Some (blue_verdict drop vars rnd)
  end.

End Cobalt.

(** ** Sequences of calls *)

Section Events.

Context {H : Host}.

(** The three calls that a queue makes on one [cobalt_vars]. *)
Inductive event :=
| Dequeue (now : Z) (skb : sk_buff)
| QueueFull (now : Z)
| QueueEmpty (now : Z).

(** One call; the loop of [cobalt_should_drop] gets [count] units of fuel,
    which [codel_resync_returns] below shows to be enough. *)
Definition cobalt_event (cache : list Z) (p : cobalt_params) (e : event)
    (s : cobalt_vars * prandom_state)
  : option (cobalt_vars * prandom_state) :=
  match e with
  | Dequeue now skb =>
      match cobalt_should_drop (Z.to_nat (count (fst s))) cache (fst s) p
              now skb (snd s) with
      | None => None
      | Some (_, vars, rnd) => Some (vars, rnd)
      end
  | QueueFull now => Some (cobalt_queue_full (fst s) p now, snd s)
  | QueueEmpty now => Some (cobalt_queue_empty (fst s) p now, snd s)
  end.

Fixpoint cobalt_run (cache : list Z) (p : cobalt_params)
    (evs : list event) (s : cobalt_vars * prandom_state)
  : option (cobalt_vars * prandom_state) :=
  match evs with
  | [] => Some s
  | e :: evs' =>
      match cobalt_event cache p e s with
      | None => None
      | Some s' => cobalt_run cache p evs' s'
      end
  end.

End Events.

(** ** The same calls over unbounded integers with explicit saturation

    These follow the words of the specification: [count] and [p_drop] are
    kept as mathematical integers, an increment clamps at the largest u32,
    the decrement of [p_drop] floors at zero and the decrement of [count] is
    a plain subtraction.  Nothing here reduces modulo [2^32]. *)
Module Saturating.
Section Saturating.

Context {H : Host}.

Definition sat_add (x y : Z) : Z := Z.min (x + y) U32_MAX.
Definition floor_sub (x y : Z) : Z := Z.max (x - y) 0.

Definition queue_full (vars : cobalt_vars) (p : cobalt_params) (now : Z)
  : cobalt_vars :=
  let vars :=
    if target p <? u64 (now - blue_timer vars)
    then set_blue_timer now
           (set_p_drop (sat_add (p_drop vars) (p_inc p)) vars)
    else vars in
  let vars := set_drop_next now (set_dropping true vars) in
  if count vars =? 0 then set_count 1 vars else vars.

Definition queue_empty (vars : cobalt_vars) (p : cobalt_params) (now : Z)
  : cobalt_vars :=
  let vars :=
    if target p <? u64 (now - blue_timer vars)
    then set_blue_timer now
           (set_p_drop (floor_sub (p_drop vars) (p_dec p)) vars)
    else vars in
  set_dropping false vars.

Definition advance (cache : list Z) (p : cobalt_params)
    (vars : cobalt_vars) : cobalt_vars :=
  let vars := set_count (sat_add (count vars) 1) vars in
  let vars := cobalt_Newton_step cache vars in
  set_drop_next
    (cobalt_control_law (drop_next vars) (interval p) (rec_inv_sqrt vars))
    vars.

Definition step_back (cache : list Z) (p : cobalt_params)
    (vars : cobalt_vars) : cobalt_vars :=
  let vars := set_count (count vars - 1) vars in
  let vars := cobalt_Newton_step cache vars in
  set_drop_next
    (cobalt_control_law (drop_next vars) (interval p) (rec_inv_sqrt vars))
    vars.

Fixpoint resync (fuel : nat) (cache : list Z) (p : cobalt_params)
    (now : Z) (vars : cobalt_vars) (next_due : bool)
  : option cobalt_vars :=
  if next_due then
    match fuel with
    | O => None
    | S fuel' =>
        let vars := step_back cache p vars in
        resync fuel' cache p now vars (next_due_of now vars)
    end
  else Some vars.

Definition should_drop (fuel : nat) (cache : list Z) (vars : cobalt_vars)
    (p : cobalt_params) (now : Z) (skb : sk_buff) (rnd : prandom_state)
  : option (bool * cobalt_vars * prandom_state) :=
  let over_target := over_target_of p now skb in
  let next_due := next_due_of now vars in
  let vars :=
    codel_transition over_target p now (set_ecn_marked false vars) in
  let codel :=
    if next_due && dropping vars then
      let marked := INET_ECN_set_ce skb in
      Some (negb marked, advance cache p (set_ecn_marked marked vars))
    else
      match resync fuel cache p now vars next_due with
      | None => None
      | Some vars => Some (false, vars)
      end in
  match codel with
  | None => None
  | Some (drop, vars) => Some (blue_verdict drop vars rnd)
  end.

Definition event_step (cache : list Z) (p : cobalt_params) (e : event)
    (s : cobalt_vars * prandom_state)
  : option (cobalt_vars * prandom_state) :=
  match e with
  | Dequeue now skb =>
      match should_drop (Z.to_nat (count (fst s))) cache (fst s) p now skb
              (snd s) with
      | None => None
      | Some (_, vars, rnd) => Some (vars, rnd)
      end
  | QueueFull now => Some (queue_full (fst s) p now, snd s)
  | QueueEmpty now => Some (queue_empty (fst s) p now, snd s)
  end.

Fixpoint run (cache : list Z) (p : cobalt_params) (evs : list event)
    (s : cobalt_vars * prandom_state)
  : option (cobalt_vars * prandom_state) :=
  match evs with
  | [] => Some s
  | e :: evs' =>
      match event_step cache p e s with
      | None => None
      | Some s' => run cache p evs' s'
      end
  end.

End Saturating.
End Saturating.

(** ** The table as the specification describes it

    Entry 0 is the largest 32-bit fraction; every further entry is reached
    from the one before by four Newton iterations of the general path. *)
Fixpoint table_by_general_path (n : nat) : Z :=
  match n with
  | O => U32_MAX
  | S m =>
      Nat.iter 4 (cobalt_Newton_general (Z.of_nat (S m)))
        (table_by_general_path m)
  end.

(** The table that the seed and the loop of [cobalt_cache_init] leave. *)
Definition built_table : list Z :=
  Eval vm_compute in
    match cobalt_cache_build 15 vars_zero boot_globals with
    | Some g => cobalt_rec_inv_sqrt_cache g
    | None => []
    end.

(** ** Well-typed values *)

Definition wf_vars (v : cobalt_vars) : Prop :=
  is_u32 (count v) /\ is_u32 (p_drop v).

Definition wf_params (p : cobalt_params) : Prop :=
  is_u32 (p_inc p) /\ is_u32 (p_dec p).

(** Equality on every field but [count], [rec_inv_sqrt] and [drop_next]. *)
Definition same_blue (v v' : cobalt_vars) : Prop :=
  p_drop v' = p_drop v /\ blue_timer v' = blue_timer v
  /\ dropping v' = dropping v /\ ecn_marked v' = ecn_marked v.

(** Two parameter blocks that agree on every field but [threshold]. *)
Definition differ_only_in_threshold (p1 p2 : cobalt_params) : Prop :=
  interval p1 = interval p2 /\ target p1 = target p2
  /\ p_inc p1 = p_inc p2 /\ p_dec p1 = p_dec p2.

(** ** Calls in DROPPING state

    What one call may do to [count] and [drop_next] while the sojourn time
    is above [target]: a call that is due raises [count] by one, clamped at
    the largest u32, and moves [drop_next] on by the control law; a call
    that is not due leaves [drop_next] alone and only turns a zero [count]
    into 1. *)
Section DroppingCalls.

Context {H : Host}.

Definition dropping_call_effect (p : cobalt_params) (now : Z)
    (v v' : cobalt_vars) : Prop :=
  dropping v' = true
  /\ is_u32 (count v')
  /\ count v <= count v'
  /\ 0 <= s64 (drop_next v' - drop_next v)
  /\ (next_due_of now v = true ->
        count v' = Z.min (count v + 1) U32_MAX
        /\ drop_next v'
           = cobalt_control_law (drop_next v) (interval p)
               (rec_inv_sqrt v'))
  /\ (next_due_of now v = false ->
        count v' = (if count v =? 0 then 1 else count v)
        /\ drop_next v' = drop_next v).

(** Successive calls, each returning and each with that effect. *)
Fixpoint dropping_calls (cache : list Z) (p : cobalt_params)
    (calls : list (Z * sk_buff)) (v : cobalt_vars) (rnd : prandom_state)
  : Prop :=
  match calls with
  | [] => True
  | (now, skb) :: rest =>
      exists drop v' rnd',
        cobalt_should_drop (Z.to_nat (count v)) cache v p now skb rnd
        = Some (drop, v', rnd')
        /\ dropping_call_effect p now v v'
        /\ dropping_calls cache p rest v' rnd'
  end.

(** The claim as the specification words it: in DROPPING state every call
    with a sojourn time above [target] strictly increases [count]. *)
Definition every_dropping_call_raises_count : Prop :=
  forall (fuel : nat) (cache : list Z) (p : cobalt_params)
         (v : cobalt_vars) (now : Z) (skb : sk_buff)
         (rnd : prandom_state) drop v' rnd',
    wf_vars v ->
    dropping v = true ->
    over_target_of p now skb = true ->
    cobalt_should_drop fuel cache v p now skb rnd = Some (drop, v', rnd') ->
    count v < count v'.

End DroppingCalls.

(** ** A host to run the model on

    A packet carries its control block and whether it can take a CE mark;
    the generator replays a list of draws; [reciprocal_scale] is the
    kernel's [(u32)(((u64) val * ep_ro) >> 32)] on [u32] arguments. *)
Record sim_skb := { sim_cb : cobalt_skb_cb; sim_ect : bool }.

Definition sim_prandom_u32 (draws : list Z) : Z * list Z :=
  match draws with
  | [] => (0, [])
  | x :: rest => (u32 x, rest)
  end.

Definition sim_reciprocal_scale (val ep_ro : Z) : Z :=
  u32 (Z.shiftr (u64 (u32 val * u32 ep_ro)) 32).

Definition sim_host : Host :=
  {| sk_buff := sim_skb;
     qdisc_skb_cb_data := sim_cb;
     INET_ECN_set_ce := sim_ect;
     prandom_state := list Z;
     prandom_u32 := sim_prandom_u32;
     reciprocal_scale := sim_reciprocal_scale |}.

(** The parameters of the end-to-end scenarios: target 5 ms, interval
    100 ms. *)
Definition sim_params : cobalt_params :=
  {| interval := MS2TIME 100; target := MS2TIME 5; threshold := 0;
     p_inc := 1 ; p_dec := 1 |}.

(** A packet that has waited [ms] milliseconds when it is dequeued at
    [now]. *)
Definition sim_packet (now ms : Z) (ect : bool) : sim_skb :=
  {| sim_cb := {| enqueue_time := u64 (now - MS2TIME ms) |};
     sim_ect := ect |}.

(** The packets and the state of the second end-to-end scenario: the
    first call has put the controller in DROPPING state with the next
    action due at 100 ms; the second packet is dequeued at 1 ms. *)
Definition sim_first_packet : sim_skb := sim_packet 0 6 false.
Definition sim_second_packet : sim_skb := sim_packet (MS2TIME 1) 6 false.
Definition sim_late_packet : sim_skb := sim_packet (MS2TIME 100) 6 false.

Definition sim_dropping_vars : cobalt_vars :=
  {| count := 1; rec_inv_sqrt := 0; drop_next := MS2TIME 100;
     blue_timer := 0; p_drop := 0; dropping := true; ecn_marked := false |}.

Definition sim_late_ect_packet : sim_skb := sim_packet (MS2TIME 100) 6 true.

(** The same parameters with another [threshold]. *)
Definition sim_params_threshold : cobalt_params :=
  {| interval := MS2TIME 100; target := MS2TIME 5; threshold := MS2TIME 7;
     p_inc := 1 ; p_dec := 1 |}.

(** BLUE steps of a sixteenth of the range, a probability one step below
    the top and one below a step. *)
Definition sim_blue_params : cobalt_params :=
  {| interval := MS2TIME 100; target := MS2TIME 5; threshold := 0;
     p_inc := 0x10000000; p_dec := 0x10000000 |}.

Definition sim_high_vars : cobalt_vars :=
  {| count := 0; rec_inv_sqrt := 0; drop_next := 0; blue_timer := 0;
     p_drop := 0xf8000000; dropping := false; ecn_marked := false |}.

Definition sim_low_vars : cobalt_vars :=
  {| count := 3; rec_inv_sqrt := 0; drop_next := 0; blue_timer := 0;
     p_drop := 0x08000000; dropping := true; ecn_marked := false |}.

(** A queue's life: a packet over target, an overflow, a late packet that
    is due, and a drain. *)
Definition sim_events : list (event (H := sim_host)) :=
  [ Dequeue (H := sim_host) 0 sim_first_packet;
    QueueFull (MS2TIME 10);
    Dequeue (H := sim_host) (MS2TIME 100) sim_late_ect_packet;
    QueueEmpty (MS2TIME 120) ].

(** ** Moving the clock

    Every time stamp of the variables moved on by [d], modulo [2^64]. *)
Definition shift_time (d : Z) (v : cobalt_vars) : cobalt_vars :=
  set_drop_next (u64 (drop_next v + d))
    (set_blue_timer (u64 (blue_timer v + d)) v).

(** ** Runs of one BLUE entry point

    [cobalt_queue_full], respectively [cobalt_queue_empty], called at each
    time stamp of a list in turn. *)
Definition queue_full_at (p : cobalt_params) (nows : list Z)
    (v : cobalt_vars) : cobalt_vars :=
  fold_left (fun v now => cobalt_queue_full v p now) nows v.

Definition queue_empty_at (p : cobalt_params) (nows : list Z)
    (v : cobalt_vars) : cobalt_vars :=
  fold_left (fun v now => cobalt_queue_empty v p now) nows v.

(** Each time stamp is more than [target] after the one before it, the
    first one more than [target] after [t0], as u64 differences. *)
Fixpoint spaced_by_target (p : cobalt_params) (t0 : Z) (nows : list Z)
  : Prop :=
  match nows with
  | [] => True
  | now :: rest =>
      target p < u64 (now - t0) /\ spaced_by_target p now rest
  end.

(** A packet with its enqueue time moved on by [d], and static storage
    in which the guard object is one of its own and already set. *)
Definition sim_shift_packet (d : Z) (skb : sim_skb) : sim_skb :=
  {| sim_cb := {| enqueue_time := u64 (enqueue_time (sim_cb skb) + d) |};
     sim_ect := sim_ect skb |}.

Definition sim_guarded_globals : globals :=
  set_rev_cache [1] boot_globals.

(** A controller that has left DROPPING state with [count] 3 and a stale
    schedule, and packets dequeued one second later. *)
Definition sim_stale_vars : cobalt_vars := set_dropping false sim_low_vars.
Definition sim_quiet_packet : sim_skb := sim_packet (MS2TIME 1000) 1 true.
Definition sim_slow_packet : sim_skb := sim_packet (MS2TIME 1000) 6 false.

(** A packet stamped one millisecond after time 0. *)
Definition sim_future_packet : sim_skb :=
  {| sim_cb := {| enqueue_time := MS2TIME 1 |}; sim_ect := false |}.

(** A clock shift that takes 100 ms across the wrap of the u64 clock. *)
Definition sim_wrapping_shift : Z := 2 ^ 64 - MS2TIME 50.

(** * Properties *)

(** ** Machine integers *)

Lemma u32_range x : 0 <= u32 x <= U32_MAX.
Proof.
  unfold u32, U32_MAX.
  pose proof (Z.mod_pos_bound x (2 ^ 32)). lia.
Qed.

Lemma u32_id x : is_u32 x -> u32 x = x.
Proof.
  unfold is_u32, u32, U32_MAX. intros Hx.
  apply Z.mod_small. lia.
Qed.

Lemma u32_succ x :
  is_u32 x -> u32 (x + 1) = if x =? U32_MAX then 0 else x + 1.
Proof.
  unfold is_u32, u32, U32_MAX. intros Hx.
  destruct (Z.eqb_spec x (2 ^ 32 - 1)) as [->|Hne].
  - reflexivity.
  - apply Z.mod_small. lia.
Qed.

Lemma u32_pred x : is_u32 x -> x <> 0 -> u32 (x - 1) = x - 1.
Proof.
  unfold is_u32, u32, U32_MAX. intros Hx Hne.
  apply Z.mod_small. lia.
Qed.

(** The C idiom [a += b; if (a < b) a = ~0;] is a saturating addition. *)
Lemma u32_add_wraps a b :
  is_u32 a -> is_u32 b ->
  (u32 (a + b) <? b) = (U32_MAX <? a + b).
Proof.
  unfold is_u32, u32, U32_MAX. intros Ha Hb.
  destruct (Z.ltb_spec (2 ^ 32 - 1) (a + b)) as [Hov|Hfit].
  - assert (Hm : (a + b) mod 2 ^ 32 = a + b - 2 ^ 32).
    { symmetry. apply (Z.mod_unique_pos _ _ 1); lia. }
    rewrite Hm. apply Z.ltb_lt. lia.
  - rewrite Z.mod_small by lia. apply Z.ltb_ge. lia.
Qed.

Lemma u32_lnot_0 : u32 (Z.lnot 0) = U32_MAX.
Proof. reflexivity. Qed.

Lemma s64_small x : 0 <= x < 2 ^ 63 -> s64 x = x.
Proof.
  intros Hx. unfold s64.
  rewrite Z.mod_small by lia.
  destruct (Z.ltb_spec x (2 ^ 63)); lia.
Qed.

(** ** Initialisation *)

Section InitFacts.

Variable rev_is_rec : bool.

(** While the guard cell reads 0 neither function of the pair returns:
    each calls the other before anything is stored. *)
Lemma init_pair_diverges fuel g :
  rev_cell0 rev_is_rec g = 0 ->
  cobalt_vars_init rev_is_rec fuel g = None
  /\ cobalt_cache_init rev_is_rec fuel g = None.
Proof.
  intros Hg. induction fuel as [|fuel [IHv IHc]].
  - split; reflexivity.
  - split; simpl.
    + rewrite Hg. simpl. rewrite IHc. reflexivity.
    + rewrite IHv. reflexivity.
Qed.

(** Once the guard cell is set, a call zeroes the variables and leaves
    static storage alone. *)
Lemma cobalt_vars_init_later fuel g :
  rev_cell0 rev_is_rec g <> 0 ->
  cobalt_vars_init rev_is_rec (S fuel) g = Some (vars_zero, g).
Proof.
  intros Hg. simpl.
  destruct (Z.eqb_spec (rev_cell0 rev_is_rec g) 0); [contradiction|].
  reflexivity.
Qed.

(** Whatever the guard cell holds at boot, no call of [cobalt_vars_init]
    on the zeroed table returns with the table constructed. *)
Lemma cobalt_vars_init_builds_nothing fuel g vars g' :
  cobalt_rec_inv_sqrt_cache g = static_table ->
  cobalt_vars_init rev_is_rec fuel g = Some (vars, g') ->
  cobalt_rec_inv_sqrt_cache g' = static_table.
Proof.
  intros Hrec Hret.
  destruct (Z.eq_dec (rev_cell0 rev_is_rec g) 0) as [Hz|Hnz].
  - destruct (init_pair_diverges fuel g Hz) as [Hv _]. congruence.
  - destruct fuel as [|fuel]; [discriminate|].
    rewrite cobalt_vars_init_later in Hret by assumption.
    congruence.
Qed.

End InitFacts.

(** C1: the claim asks that the first [init] call returns with the table
    built.  On the storage as the loader leaves it, [cobalt_vars_init] does
    not return for any amount of fuel: it calls [cobalt_cache_init], which
    first calls [cobalt_vars_init] again with the guard cell still 0. *)
Theorem cobalt_vars_init_first_call_never_returns :
  forall (rev_is_rec : bool) (fuel : nat),
    cobalt_vars_init rev_is_rec fuel boot_globals = None.
Proof.
  intros b fuel.
  apply init_pair_diverges.
  destruct b; reflexivity.
Qed.

(** ** The table *)

Lemma cobalt_cache_loop_fuel_mono fuel fuel' v g r :
  cobalt_cache_loop fuel v g = Some r ->
  (fuel <= fuel')%nat ->
  cobalt_cache_loop fuel' v g = Some r.
Proof.
  revert fuel' v g.
  induction fuel as [|fuel IH]; intros fuel' v g Hrun Hle.
  - destruct fuel'; simpl in *;
      destruct (count v <? REC_INV_SQRT_CACHE); congruence.
  - destruct fuel' as [|fuel']; [lia|]. simpl in *.
    destruct (count v <? REC_INV_SQRT_CACHE); [|assumption].
    apply IH; [assumption|lia].
Qed.

Lemma cobalt_cache_build_static fuel v g :
  (15 <= fuel)%nat ->
  drop 1 (cobalt_rec_inv_sqrt_cache g) = replicate 15 0 ->
  cobalt_cache_build fuel v g
  = Some (set_rec_cache built_table g).
Proof.
  intros Hfuel Htail.
  destruct g as [rec rev]. simpl in Htail.
  destruct rec as [|x rec]; [discriminate|].
  simpl in Htail. rewrite drop_0 in Htail. subst rec.
  unfold cobalt_cache_build.
  apply (cobalt_cache_loop_fuel_mono 15); [|assumption].
  vm_compute. reflexivity.
Qed.

Lemma built_table_general_path cnt :
  0 <= cnt < REC_INV_SQRT_CACHE ->
  cache_at built_table cnt = table_by_general_path (Z.to_nat cnt).
Proof.
  unfold REC_INV_SQRT_CACHE. intros Hc.
  assert (Hcases : cnt = 0 \/ cnt = 1 \/ cnt = 2 \/ cnt = 3 \/ cnt = 4
                   \/ cnt = 5 \/ cnt = 6 \/ cnt = 7 \/ cnt = 8 \/ cnt = 9
                   \/ cnt = 10 \/ cnt = 11 \/ cnt = 12 \/ cnt = 13
                   \/ cnt = 14 \/ cnt = 15) by lia.
  repeat (destruct Hcases as [->|Hcases]; [vm_compute; reflexivity|]).
  subst cnt. vm_compute. reflexivity.
Qed.

Lemma built_table_nonzero cnt :
  0 <= cnt < REC_INV_SQRT_CACHE -> cache_at built_table cnt <> 0.
Proof.
  unfold REC_INV_SQRT_CACHE. intros Hc.
  assert (Hcases : cnt = 0 \/ cnt = 1 \/ cnt = 2 \/ cnt = 3 \/ cnt = 4
                   \/ cnt = 5 \/ cnt = 6 \/ cnt = 7 \/ cnt = 8 \/ cnt = 9
                   \/ cnt = 10 \/ cnt = 11 \/ cnt = 12 \/ cnt = 13
                   \/ cnt = 14 \/ cnt = 15) by lia.
  repeat (destruct Hcases as [->|Hcases]; [vm_compute; discriminate|]).
  subst cnt. vm_compute. discriminate.
Qed.

(** What the code sets out to build.  Run on a table whose entries 1..15
    are still zero, the seed and the loop of [cobalt_cache_init] (lines
    151-161, without the call at line 150) return, and for every [cnt] in
    [0,15] the entry they leave is the value reached from the all-ones seed
    by four general-path Newton iterations per increment;
    [cobalt_Newton_step] on that table would take the lookup path and
    return the same value. *)
Lemma cache_build_agrees_with_general_path :
  forall (fuel : nat) (v : cobalt_vars) (g : globals),
    (15 <= fuel)%nat ->
    drop 1 (cobalt_rec_inv_sqrt_cache g) = replicate 15 0 ->
    exists g',
      cobalt_cache_build fuel v g = Some g'
      /\ (forall cnt, 0 <= cnt < REC_INV_SQRT_CACHE ->
            cache_at (cobalt_rec_inv_sqrt_cache g') cnt
            = table_by_general_path (Z.to_nat cnt)
            /\ forall vars, count vars = cnt ->
                 rec_inv_sqrt
                   (cobalt_Newton_step (cobalt_rec_inv_sqrt_cache g') vars)
                 = table_by_general_path (Z.to_nat cnt)).
Proof.
  intros fuel v g Hfuel Htail.
  exists (set_rec_cache built_table g).
  split; [apply cobalt_cache_build_static; assumption|].
  intros cnt Hc. simpl. split.
  - apply built_table_general_path. assumption.
  - intros vars Hcnt. unfold cobalt_Newton_step. rewrite Hcnt.
    destruct (Z.ltb_spec cnt REC_INV_SQRT_CACHE) as [_|Hge]; [|lia].
    destruct (Z.eqb_spec (cache_at built_table cnt) 0) as [Hz|_].
    + exfalso. revert Hz. apply built_table_nonzero. assumption.
    + simpl. apply built_table_general_path. assumption.
Qed.

(** C5: the claim asks that every entry of the cached table holds the value
    reached from the all-ones seed by four general-path steps per increment
    and that lookup and general path agree.  On the storage as the loader
    leaves it neither [cobalt_cache_init] nor [cobalt_vars_init] returns for
    any amount of fuel, so nothing is ever stored: each of the sixteen
    entries of the table is 0 while none of the sixteen values of the claim
    is (entry 2 is 0, the claim's value 3035289760), and
    [cobalt_Newton_step] never finds an entry to look up, it takes the
    general path for every count. *)
Theorem cache_table_is_never_built :
  forall (rev_is_rec : bool) (fuel : nat),
    cobalt_cache_init rev_is_rec fuel boot_globals = None
    /\ cobalt_vars_init rev_is_rec fuel boot_globals = None
    /\ Forall
         (fun n =>
            cache_at (cobalt_rec_inv_sqrt_cache boot_globals) (Z.of_nat n)
            = 0
            /\ (table_by_general_path n =? 0) = false)
         (seq 0 16)
    /\ cache_at (cobalt_rec_inv_sqrt_cache boot_globals) 2 = 0
    /\ table_by_general_path 2 = 3035289760
    /\ (forall vars,
          cobalt_Newton_step (cobalt_rec_inv_sqrt_cache boot_globals) vars
          = set_rec_inv_sqrt
              (cobalt_Newton_general (count vars) (rec_inv_sqrt vars))
              vars).
Proof.
  intros b fuel.
  assert (Hguard : rev_cell0 b boot_globals = 0) by (destruct b; reflexivity).
  destruct (init_pair_diverges b fuel boot_globals Hguard) as [Hv Hc].
  split; [exact Hc|]. split; [exact Hv|].
  split; [repeat constructor|].
  split; [reflexivity|]. split; [reflexivity|].
  intros vars. unfold cobalt_Newton_step.
  assert (Hzero : cache_at (cobalt_rec_inv_sqrt_cache boot_globals)
                    (count vars) = 0).
  { unfold cache_at. cbn [cobalt_rec_inv_sqrt_cache boot_globals].
    destruct (static_table !! Z.to_nat (count vars)) as [x|] eqn:Hx;
      [|reflexivity].
    unfold static_table in Hx. apply lookup_replicate in Hx.
    cbn. tauto. }
  rewrite Hzero, andb_false_r. reflexivity.
Qed.

(** ** What each piece of [cobalt_should_drop] touches *)

Lemma same_blue_refl v : same_blue v v.
Proof. repeat split. Qed.

Lemma same_blue_trans v1 v2 v3 :
  same_blue v1 v2 -> same_blue v2 v3 -> same_blue v1 v3.
Proof. unfold same_blue. intuition congruence. Qed.

Lemma cobalt_Newton_step_frame cache v :
  count (cobalt_Newton_step cache v) = count v
  /\ drop_next (cobalt_Newton_step cache v) = drop_next v
  /\ same_blue v (cobalt_Newton_step cache v).
Proof.
  unfold cobalt_Newton_step, same_blue.
  destruct ((count v <? REC_INV_SQRT_CACHE)
            && negb (cache_at cache (count v) =? 0)); simpl; tauto.
Qed.

Section ShouldDropFacts.

Context {H : Host}.

Lemma codel_step_back_frame cache p v :
  count (codel_step_back cache p v) = u32 (count v - 1)
  /\ same_blue v (codel_step_back cache p v).
Proof.
  unfold codel_step_back.
  destruct (cobalt_Newton_step_frame cache
              (set_count (u32 (count v - 1)) v)) as (Hc & _ & Hb).
  simpl. split; [exact Hc|exact Hb].
Qed.

Lemma codel_step_back_saturating cache p v :
  is_u32 (count v) -> count v <> 0 ->
  codel_step_back cache p v = Saturating.step_back cache p v.
Proof.
  intros Hu Hne. unfold codel_step_back, Saturating.step_back.
  rewrite u32_pred by assumption. reflexivity.
Qed.

Lemma codel_advance_saturating cache p v :
  is_u32 (count v) ->
  codel_advance cache p v = Saturating.advance cache p v.
Proof.
  intros Hu. unfold codel_advance, Saturating.advance, Saturating.sat_add.
  cbn [count set_count]. rewrite u32_succ by assumption.
  unfold is_u32 in Hu.
  destruct (Z.eqb_spec (count v) U32_MAX) as [Hmax|Hne].
  - simpl. rewrite Hmax. reflexivity.
  - destruct (Z.eqb_spec (count v + 1) 0) as [Hz|_]; [lia|].
    rewrite Z.min_l by lia. reflexivity.
Qed.

Lemma saturating_advance_frame cache p v :
  count (Saturating.advance cache p v)
  = Saturating.sat_add (count v) 1
  /\ drop_next (Saturating.advance cache p v)
     = cobalt_control_law (drop_next v) (interval p)
         (rec_inv_sqrt (Saturating.advance cache p v))
  /\ same_blue v (Saturating.advance cache p v).
Proof.
  unfold Saturating.advance.
  destruct (cobalt_Newton_step_frame cache
              (set_count (Saturating.sat_add (count v) 1) v))
    as (Hc & Hd & Hb).
  cbn [count drop_next rec_inv_sqrt set_drop_next].
  rewrite Hd. simpl. repeat split; try assumption; apply Hb.
Qed.

Lemma next_due_of_count now v :
  next_due_of now v = true -> count v <> 0.
Proof.
  unfold next_due_of. intros Hd Hz. rewrite Hz in Hd. discriminate.
Qed.

(** The resynchronisation loop returns within [count] iterations, never
    decrements a zero counter, and agrees with the loop over unbounded
    integers. *)
Lemma codel_resync_returns fuel cache p now v next_due :
  is_u32 (count v) ->
  (next_due = true -> count v <> 0) ->
  (Z.to_nat (count v) <= fuel)%nat ->
  exists v',
    codel_resync fuel cache p now v next_due = Some v'
    /\ Saturating.resync fuel cache p now v next_due = Some v'
    /\ 0 <= count v' <= count v
    /\ same_blue v v'
    /\ (next_due = false -> v' = v).
Proof.
  revert v next_due.
  induction fuel as [|fuel IH]; intros v next_due Hu Hnz Hfuel.
  - destruct next_due.
    + specialize (Hnz eq_refl). unfold is_u32 in Hu. lia.
    + exists v. unfold is_u32 in Hu.
      split; [reflexivity|]. split; [reflexivity|].
      split; [lia|]. split; [apply same_blue_refl|]. reflexivity.
  - destruct next_due.
    + specialize (Hnz eq_refl).
      destruct (codel_step_back_frame cache p v) as [Hc Hb].
      rewrite u32_pred in Hc by assumption.
      unfold is_u32 in Hu.
      destruct (IH (codel_step_back cache p v)
                  (next_due_of now (codel_step_back cache p v)))
        as (v' & Hrun & Hsat & Hcount & Hblue & _).
      * unfold is_u32. lia.
      * apply next_due_of_count.
      * lia.
      * exists v'. simpl.
        rewrite <- codel_step_back_saturating by (unfold is_u32; lia).
        split; [exact Hrun|]. split; [exact Hsat|].
        split; [lia|]. split; [|discriminate].
        eapply same_blue_trans; eassumption.
    + exists v. unfold is_u32 in Hu.
      split; [reflexivity|]. split; [reflexivity|].
      split; [lia|]. split; [apply same_blue_refl|]. reflexivity.
Qed.

Lemma codel_resync_fuel_mono fuel fuel' cache p now v next_due v' :
  codel_resync fuel cache p now v next_due = Some v' ->
  (fuel <= fuel')%nat ->
  codel_resync fuel' cache p now v next_due = Some v'.
Proof.
  revert fuel' v next_due.
  induction fuel as [|fuel IH]; intros fuel' v next_due Hrun Hle.
  - destruct next_due; [discriminate|].
    destruct fuel'; exact Hrun.
  - destruct fuel' as [|fuel']; [lia|].
    destruct next_due; [|exact Hrun].
    simpl in *. apply IH; [assumption|lia].
Qed.

Lemma codel_transition_frame ot p now v :
  let v1 := codel_transition ot p now v in
  dropping v1 = ot
  /\ count v1 = (if ot && (count v =? 0) then 1 else count v)
  /\ drop_next v1 = (if ot && negb (dropping v)
                     then u64 (now + interval p) else drop_next v)
  /\ rec_inv_sqrt v1 = rec_inv_sqrt v
  /\ p_drop v1 = p_drop v /\ blue_timer v1 = blue_timer v
  /\ ecn_marked v1 = ecn_marked v.
Proof.
  unfold codel_transition.
  destruct ot, (dropping v) eqn:Hd; simpl;
    destruct (count v =? 0); simpl; rewrite ?Hd; tauto.
Qed.

End ShouldDropFacts.

(** ** [cobalt_should_drop] as a whole *)

Section ShouldDropCalls.

Context {H : Host}.

Lemma blue_verdict_vars drop v rnd :
  snd (fst (blue_verdict drop v rnd)) = v.
Proof.
  unfold blue_verdict.
  destruct (negb (p_drop v =? 0)); [|reflexivity].
  destruct (prandom_u32 rnd). reflexivity.
Qed.

Lemma blue_verdict_idle drop v rnd :
  p_drop v = 0 -> blue_verdict drop v rnd = (drop, v, rnd).
Proof. unfold blue_verdict. intros ->. reflexivity. Qed.

(** With [count] units of fuel the call returns.  Its result is the BLUE
    verdict on what the CoDel part leaves, and the CoDel part either
    advances (the packet is due and the state is DROPPING) or runs the
    resynchronisation loop. *)
Lemma cobalt_should_drop_returns fuel cache v p now skb rnd :
  is_u32 (count v) ->
  (Z.to_nat (count v) <= fuel)%nat ->
  let ot := over_target_of p now skb in
  let nd := next_due_of now v in
  let v1 := codel_transition ot p now (set_ecn_marked false v) in
  exists drop v2,
    cobalt_should_drop fuel cache v p now skb rnd
    = Some (blue_verdict drop v2 rnd)
    /\ Saturating.should_drop fuel cache v p now skb rnd
       = Some (blue_verdict drop v2 rnd)
    /\ is_u32 (count v1)
    /\ if nd && ot
       then v2 = Saturating.advance cache p
                   (set_ecn_marked (INET_ECN_set_ce skb) v1)
            /\ drop = negb (INET_ECN_set_ce skb)
       else 0 <= count v2 <= count v1 /\ same_blue v1 v2
            /\ (nd = false -> v2 = v1) /\ drop = false.
Proof.
  intros Hu Hfuel ot nd v1.
  destruct (codel_transition_frame ot p now (set_ecn_marked false v))
    as (Hdrop & Hcount & _).
  fold v1 in Hdrop, Hcount. cbn [count set_ecn_marked] in Hcount.
  assert (Hu1 : is_u32 (count v1)).
  { rewrite Hcount. destruct (ot && (count v =? 0)); [|assumption].
    unfold is_u32, U32_MAX. lia. }
  unfold cobalt_should_drop, Saturating.should_drop.
  fold ot nd v1. rewrite Hdrop.
  destruct nd eqn:Hnd; [destruct ot eqn:Hot|]; cbn [andb].
  - exists (negb (INET_ECN_set_ce skb)).
    exists (Saturating.advance cache p
              (set_ecn_marked (INET_ECN_set_ce skb) v1)).
    rewrite codel_advance_saturating by exact Hu1.
    split; [reflexivity|]. split; [reflexivity|]. split; [exact Hu1|].
    split; reflexivity.
  - pose proof (next_due_of_count now v Hnd) as Hnz.
    assert (Hc1 : count v1 = count v).
    { rewrite Hcount. reflexivity. }
    destruct (codel_resync_returns fuel cache p now v1 true)
      as (v2 & Hrun & Hsat & Hcnt & Hblue & Hid).
    + exact Hu1.
    + intros _. congruence.
    + rewrite Hc1. exact Hfuel.
    + exists false, v2. rewrite Hrun, Hsat.
      split; [reflexivity|]. split; [reflexivity|]. split; [exact Hu1|].
      split; [exact Hcnt|]. split; [exact Hblue|].
      split; [discriminate|reflexivity].
  - exists false, v1.
    assert (Hrun : forall f, codel_resync f cache p now v1 false = Some v1)
      by (intros [|f]; reflexivity).
    assert (Hsat : forall f,
               Saturating.resync f cache p now v1 false = Some v1)
      by (intros [|f]; reflexivity).
    rewrite Hrun, Hsat.
    split; [reflexivity|]. split; [reflexivity|]. split; [exact Hu1|].
    unfold is_u32 in Hu1.
    split; [lia|]. split; [apply same_blue_refl|]. split; reflexivity.
Qed.

(** [cobalt_should_drop] reads [target] and [interval] only. *)
Lemma codel_resync_params fuel cache p1 p2 now v next_due :
  interval p1 = interval p2 ->
  codel_resync fuel cache p1 now v next_due
  = codel_resync fuel cache p2 now v next_due.
Proof.
  intros Hi. revert v next_due.
  induction fuel as [|fuel IH]; intros v next_due.
  - reflexivity.
  - destruct next_due; [|reflexivity]. simpl.
    unfold codel_step_back. rewrite Hi. apply IH.
Qed.

Lemma cobalt_should_drop_params fuel cache v p1 p2 now skb rnd :
  interval p1 = interval p2 -> target p1 = target p2 ->
  cobalt_should_drop fuel cache v p1 now skb rnd
  = cobalt_should_drop fuel cache v p2 now skb rnd.
Proof.
  intros Hi Ht.
  unfold cobalt_should_drop, over_target_of, codel_transition,
    codel_advance.
  rewrite Hi, Ht.
  rewrite (codel_resync_params fuel cache p1 p2) by exact Hi.
  reflexivity.
Qed.

End ShouldDropCalls.

(** C6: a call of [cobalt_should_drop] returns and leaves [p_drop] and
    [blue_timer] as they were; only [count], [rec_inv_sqrt], [drop_next],
    [dropping] and [ecn_marked] can differ afterwards. *)
Theorem should_drop_leaves_p_drop_and_blue_timer :
  forall (H : Host) (fuel : nat) (cache : list Z) (v : cobalt_vars)
         (p : cobalt_params) (now : Z) (skb : sk_buff)
         (rnd : prandom_state),
    is_u32 (count v) ->
    (Z.to_nat (count v) <= fuel)%nat ->
    exists drop v' rnd',
      cobalt_should_drop fuel cache v p now skb rnd = Some (drop, v', rnd')
      /\ p_drop v' = p_drop v
      /\ blue_timer v' = blue_timer v.
Proof.
  intros H fuel cache v p now skb rnd Hu Hfuel.
  destruct (cobalt_should_drop_returns fuel cache v p now skb rnd Hu Hfuel)
    as (drop & v2 & Hrun & _ & _ & Hcase).
  destruct (codel_transition_frame (over_target_of p now skb) p now
              (set_ecn_marked false v))
    as (_ & _ & _ & _ & Hp & Hb & _).
  cbn [p_drop blue_timer set_ecn_marked] in Hp, Hb.
  pose proof (blue_verdict_vars drop v2 rnd) as Hv.
  destruct (blue_verdict drop v2 rnd) as [[d v'] rnd'] eqn:Hbv.
  simpl in Hv. subst v'.
  exists d, v2, rnd'. split; [exact Hrun|].
  destruct (next_due_of now v && over_target_of p now skb).
  - destruct Hcase as [-> _].
    destruct (saturating_advance_frame cache p
                (set_ecn_marked (INET_ECN_set_ce skb)
                   (codel_transition (over_target_of p now skb) p now
                      (set_ecn_marked false v))))
      as (_ & _ & Hp2 & Hb2 & _).
    cbn [p_drop blue_timer set_ecn_marked] in Hp2, Hb2.
    split; congruence.
  - destruct Hcase as (_ & (Hp2 & Hb2 & _) & _).
    split; congruence.
Qed.

(** C10: after a call, [ecn_marked] is true exactly when the packet was due
    ([next_due]), the controller was in DROPPING state after the transition
    on this packet's sojourn time, and [INET_ECN_set_ce] succeeded on it;
    the value that [ecn_marked] had before the call plays no part. *)
Theorem should_drop_ecn_marked_is_this_packet :
  forall (H : Host) (fuel : nat) (cache : list Z) (v : cobalt_vars)
         (p : cobalt_params) (now : Z) (skb : sk_buff)
         (rnd : prandom_state),
    is_u32 (count v) ->
    (Z.to_nat (count v) <= fuel)%nat ->
    exists drop v' rnd',
      cobalt_should_drop fuel cache v p now skb rnd = Some (drop, v', rnd')
      /\ dropping v'
         = dropping (codel_transition (over_target_of p now skb) p now
                       (set_ecn_marked false v))
      /\ ecn_marked v'
         = next_due_of now v && dropping v' && INET_ECN_set_ce skb
      /\ (forall b,
            cobalt_should_drop fuel cache (set_ecn_marked b v) p now skb rnd
            = Some (drop, v', rnd')).
Proof.
  intros H fuel cache v p now skb rnd Hu Hfuel.
  destruct (cobalt_should_drop_returns fuel cache v p now skb rnd Hu Hfuel)
    as (drop & v2 & Hrun & _ & _ & Hcase).
  destruct (codel_transition_frame (over_target_of p now skb) p now
              (set_ecn_marked false v))
    as (Hd & _ & _ & _ & _ & _ & He).
  cbn [ecn_marked set_ecn_marked] in He.
  pose proof (blue_verdict_vars drop v2 rnd) as Hv.
  destruct (blue_verdict drop v2 rnd) as [[d v'] rnd'] eqn:Hbv.
  simpl in Hv. subst v'.
  exists d, v2, rnd'. split; [exact Hrun|].
  rewrite Hd.
  assert (Hfields :
    dropping v2 = over_target_of p now skb
    /\ ecn_marked v2
       = next_due_of now v && over_target_of p now skb
         && INET_ECN_set_ce skb).
  { destruct (next_due_of now v && over_target_of p now skb) eqn:Hact.
    - destruct Hcase as [-> _].
      destruct (saturating_advance_frame cache p
                  (set_ecn_marked (INET_ECN_set_ce skb)
                     (codel_transition (over_target_of p now skb) p now
                        (set_ecn_marked false v))))
        as (_ & _ & _ & _ & Hd2 & He2).
      cbn [dropping ecn_marked set_ecn_marked] in Hd2, He2.
      split; [congruence|]. rewrite He2. reflexivity.
    - destruct Hcase as (_ & (_ & _ & Hd2 & He2) & _).
      split; [congruence|]. rewrite He2, He. reflexivity. }
  destruct Hfields as [Hdv Hev].
  split; [exact Hdv|]. split; [rewrite Hdv; exact Hev|].
  intros b. rewrite <- Hrun. reflexivity.
Qed.

(** C9: [threshold] is never read.  Two parameter blocks that differ only
    in [threshold] give the same verdict, the same variables and the same
    generator state from [cobalt_should_drop], and the same variables from
    [cobalt_queue_full] and [cobalt_queue_empty]; with [count] units of fuel
    the verdict is present. *)
Theorem threshold_has_no_effect :
  forall (H : Host) (fuel : nat) (cache : list Z) (v : cobalt_vars)
         (p1 p2 : cobalt_params) (now : Z) (skb : sk_buff)
         (rnd : prandom_state),
    differ_only_in_threshold p1 p2 ->
    cobalt_should_drop fuel cache v p1 now skb rnd
    = cobalt_should_drop fuel cache v p2 now skb rnd
    /\ cobalt_queue_full v p1 now = cobalt_queue_full v p2 now
    /\ cobalt_queue_empty v p1 now = cobalt_queue_empty v p2 now
    /\ (is_u32 (count v) -> (Z.to_nat (count v) <= fuel)%nat ->
        exists r, cobalt_should_drop fuel cache v p1 now skb rnd = Some r).
Proof.
  intros H fuel cache v p1 p2 now skb rnd (Hi & Ht & Hinc & Hdec).
  split; [apply cobalt_should_drop_params; assumption|].
  split; [unfold cobalt_queue_full; rewrite Ht, Hinc; reflexivity|].
  split; [unfold cobalt_queue_empty; rewrite Ht, Hdec; reflexivity|].
  intros Hu Hfuel.
  destruct (cobalt_should_drop_returns fuel cache v p1 now skb rnd Hu Hfuel)
    as (drop & v2 & Hrun & _).
  eexists. exact Hrun.
Qed.

(** C7: target 5 ms, interval 100 ms, zeroed variables, one packet with a
    sojourn time of 6 ms dequeued at time 0: the call returns false, the
    state is DROPPING, [drop_next] is 100 ms, [count] is 1, and the packet
    is not marked. *)
Theorem first_packet_over_target :
  forall (H : Host) (fuel : nat) (cache : list Z) (p : cobalt_params)
         (skb : sk_buff) (rnd : prandom_state),
    target p = MS2TIME 5 ->
    interval p = MS2TIME 100 ->
    sojourn_of 0 skb = MS2TIME 6 ->
    cobalt_should_drop fuel cache vars_zero p 0 skb rnd
    = Some (false,
            {| count := 1; rec_inv_sqrt := 0; drop_next := MS2TIME 100;
               blue_timer := 0; p_drop := 0; dropping := true;
               ecn_marked := false |},
            rnd).
Proof.
  intros H fuel cache p skb rnd Ht Hi Hs.
  unfold cobalt_should_drop, over_target_of.
  rewrite Hs, Ht.
  change (MS2TIME 5 <? u64 (MS2TIME 6)) with true.
  change (next_due_of 0 vars_zero) with false.
  unfold codel_transition. cbn.
  rewrite Hi.
  destruct fuel; reflexivity.
Qed.

(** ** The BLUE entry points *)

Lemma cobalt_queue_full_saturating v p now :
  is_u32 (p_drop v) -> is_u32 (p_inc p) ->
  cobalt_queue_full v p now = Saturating.queue_full v p now.
Proof.
  intros Hp Hi. unfold cobalt_queue_full, Saturating.queue_full.
  destruct (target p <? u64 (now - blue_timer v)); [|reflexivity].
  cbn [p_drop set_p_drop]. rewrite u32_add_wraps by assumption.
  unfold Saturating.sat_add. unfold is_u32 in Hp, Hi.
  destruct (Z.ltb_spec U32_MAX (p_drop v + p_inc p)) as [Hov|Hfit].
  - rewrite u32_lnot_0, Z.min_r by lia. reflexivity.
  - rewrite u32_id by (unfold is_u32; lia).
    rewrite Z.min_l by lia. reflexivity.
Qed.

Lemma cobalt_queue_empty_saturating v p now :
  is_u32 (p_drop v) -> is_u32 (p_dec p) ->
  cobalt_queue_empty v p now = Saturating.queue_empty v p now.
Proof.
  intros Hp Hd. unfold cobalt_queue_empty, Saturating.queue_empty.
  destruct (target p <? u64 (now - blue_timer v)); [|reflexivity].
  unfold Saturating.floor_sub. unfold is_u32 in Hp, Hd.
  destruct (Z.ltb_spec (p_drop v) (p_dec p)) as [Hlt|Hge].
  - rewrite Z.max_r by lia. reflexivity.
  - rewrite u32_id by (unfold is_u32; lia).
    rewrite Z.max_l by lia. reflexivity.
Qed.

(** C3: [cobalt_queue_full] adds [p_inc] to [p_drop], clamping at the
    largest u32, and sets [blue_timer] to [now] exactly when the u64
    difference [now - blue_timer] exceeds [target]; in every case it sets
    [dropping], sets [drop_next] to [now] and turns a zero [count] into 1. *)
Theorem queue_full_effect :
  forall (v : cobalt_vars) (p : cobalt_params) (now : Z),
    is_u32 (p_drop v) ->
    is_u32 (p_inc p) ->
    let v' := cobalt_queue_full v p now in
    (target p < u64 (now - blue_timer v) ->
       p_drop v' = Z.min (p_drop v + p_inc p) U32_MAX
       /\ blue_timer v' = now)
    /\ (~ target p < u64 (now - blue_timer v) ->
          p_drop v' = p_drop v /\ blue_timer v' = blue_timer v)
    /\ dropping v' = true
    /\ drop_next v' = now
    /\ count v' = (if count v =? 0 then 1 else count v)
    /\ rec_inv_sqrt v' = rec_inv_sqrt v
    /\ ecn_marked v' = ecn_marked v.
Proof.
  intros v p now Hp Hi v'. subst v'.
  rewrite cobalt_queue_full_saturating by assumption.
  unfold Saturating.queue_full, Saturating.sat_add.
  destruct (Z.ltb_spec (target p) (u64 (now - blue_timer v))) as [Hlt|Hge];
    cbn [count set_drop_next set_dropping set_blue_timer set_p_drop];
    destruct (count v =? 0); cbn; (repeat split; intros; try lia; reflexivity).
Qed.

(** C4: [cobalt_queue_empty] takes [p_dec] off [p_drop], stopping at 0, and
    sets [blue_timer] to [now] exactly when the u64 difference
    [now - blue_timer] exceeds [target]; in every case it clears
    [dropping]. *)
Theorem queue_empty_effect :
  forall (v : cobalt_vars) (p : cobalt_params) (now : Z),
    is_u32 (p_drop v) ->
    is_u32 (p_dec p) ->
    let v' := cobalt_queue_empty v p now in
    (target p < u64 (now - blue_timer v) ->
       p_drop v' = Z.max (p_drop v - p_dec p) 0
       /\ (p_drop v < p_dec p -> p_drop v' = 0)
       /\ blue_timer v' = now)
    /\ (~ target p < u64 (now - blue_timer v) ->
          p_drop v' = p_drop v /\ blue_timer v' = blue_timer v)
    /\ dropping v' = false
    /\ count v' = count v
    /\ rec_inv_sqrt v' = rec_inv_sqrt v
    /\ drop_next v' = drop_next v
    /\ ecn_marked v' = ecn_marked v.
Proof.
  intros v p now Hp Hd v'. subst v'.
  rewrite cobalt_queue_empty_saturating by assumption.
  unfold Saturating.queue_empty, Saturating.floor_sub.
  destruct (Z.ltb_spec (target p) (u64 (now - blue_timer v))) as [Hlt|Hge];
    cbn; (repeat split; intros; try lia; reflexivity).
Qed.

(** ** Sequences of calls never wrap *)

Section RunFacts.

Context {H : Host}.

Lemma cobalt_event_saturating cache p e v rnd :
  wf_params p -> wf_vars v ->
  exists v' rnd',
    cobalt_event cache p e (v, rnd) = Some (v', rnd')
    /\ Saturating.event_step cache p e (v, rnd) = Some (v', rnd')
    /\ wf_vars v'.
Proof.
  intros [Hinc Hdec] [Hc Hp].
  destruct e as [now skb|now|now]; cbn [cobalt_event Saturating.event_step
                                         fst snd].
  - destruct (cobalt_should_drop_returns (Z.to_nat (count v)) cache v p
                now skb rnd Hc (Nat.le_refl _))
      as (drop & v2 & Hrun & Hsat & Hu1 & Hcase).
    destruct (codel_transition_frame (over_target_of p now skb) p now
                (set_ecn_marked false v))
      as (_ & _ & _ & _ & Hp1 & _).
    cbn [p_drop set_ecn_marked] in Hp1.
    rewrite Hrun, Hsat.
    pose proof (blue_verdict_vars drop v2 rnd) as Hv.
    destruct (blue_verdict drop v2 rnd) as [[d v'] rnd'] eqn:Hbv.
    simpl in Hv. subst v'.
    exists v2, rnd'. split; [reflexivity|]. split; [reflexivity|].
    unfold wf_vars.
    destruct (next_due_of now v && over_target_of p now skb).
    + destruct Hcase as [-> _].
      destruct (saturating_advance_frame cache p
                  (set_ecn_marked (INET_ECN_set_ce skb)
                     (codel_transition (over_target_of p now skb) p now
                        (set_ecn_marked false v))))
        as (Hc2 & _ & Hp2 & _).
      cbn [count p_drop set_ecn_marked] in Hc2, Hp2.
      rewrite Hc2, Hp2, Hp1. split; [|exact Hp].
      unfold Saturating.sat_add, is_u32 in *. lia.
    + destruct Hcase as (Hc2 & (Hp2 & _) & _).
      rewrite Hp2, Hp1. split; [|exact Hp].
      unfold is_u32 in *. lia.
  - rewrite cobalt_queue_full_saturating by assumption.
    eexists _, _. split; [reflexivity|]. split; [reflexivity|].
    unfold Saturating.queue_full, Saturating.sat_add, wf_vars, is_u32,
      U32_MAX in *.
    destruct (target p <? u64 (now - blue_timer v));
      cbn [count set_drop_next set_dropping set_blue_timer set_p_drop];
      destruct (Z.eqb_spec (count v) 0); cbn; lia.
  - rewrite cobalt_queue_empty_saturating by assumption.
    eexists _, _. split; [reflexivity|]. split; [reflexivity|].
    unfold Saturating.queue_empty, Saturating.floor_sub, wf_vars, is_u32,
      U32_MAX in *.
    destruct (target p <? u64 (now - blue_timer v)); cbn; lia.
Qed.

End RunFacts.

(** C2: from well-typed variables (the zeroed ones of [cobalt_vars_init]
    among them) every sequence of [cobalt_should_drop], [cobalt_queue_full]
    and [cobalt_queue_empty] calls returns, and the C arithmetic modulo
    [2^32] gives what unbounded integers with explicit saturation give:
    [count + 1] and [p_drop + p_inc] clamped at the largest u32,
    [p_drop - p_dec] floored at 0, [count - 1] taken as it is; [count] and
    [p_drop] stay between 0 and the largest u32 in that unbounded run.
    The increment [count++; if (!count) count--;] and the addition
    [p_drop += p_inc; if (p_drop < p_inc) p_drop = ~0;] count as one
    operation each: the wrap between their two statements is undone by the
    second. *)
Theorem count_and_p_drop_never_wrap :
  forall (H : Host) (cache : list Z) (p : cobalt_params)
         (evs : list event) (v : cobalt_vars) (rnd : prandom_state),
    wf_params p ->
    wf_vars v ->
    exists v' rnd',
      cobalt_run cache p evs (v, rnd) = Some (v', rnd')
      /\ Saturating.run cache p evs (v, rnd) = Some (v', rnd')
      /\ wf_vars v'.
Proof.
  intros H cache p evs. induction evs as [|e evs IH]; intros v rnd Hp Hv.
  - exists v, rnd. repeat split; apply Hv.
  - destruct (cobalt_event_saturating cache p e v rnd Hp Hv)
      as (v1 & rnd1 & Hstep & Hsat & Hv1).
    destruct (IH v1 rnd1 Hp Hv1) as (v' & rnd' & Hrun & Hsrun & Hv').
    exists v', rnd'. cbn [cobalt_run Saturating.run].
    rewrite Hstep, Hsat. auto.
Qed.

(** ** Calls in DROPPING state *)

Lemma u64_advance_signed d s :
  0 <= s < 2 ^ 63 -> s64 (u64 (d + s) - d) = s.
Proof.
  intros Hs. unfold s64, u64.
  rewrite Zminus_mod_idemp_l.
  replace (d + s - d) with s by lia.
  destruct (Z.ltb_spec s (2 ^ 64)) as [Hlt|Hge]; [|lia].
  rewrite Z.mod_small by lia.
  destruct (Z.ltb_spec s (2 ^ 63)); lia.
Qed.

Lemma s64_diff_self d : s64 (d - d) = 0.
Proof. rewrite Z.sub_diag. reflexivity. Qed.

Section DroppingFacts.

Context {H : Host}.

Hypothesis reciprocal_scale_u32 :
  forall a b, 0 <= reciprocal_scale a b <= U32_MAX.

Lemma dropping_call fuel cache v p now skb rnd :
  is_u32 (count v) ->
  (Z.to_nat (count v) <= fuel)%nat ->
  dropping v = true ->
  over_target_of p now skb = true ->
  exists drop v' rnd',
    cobalt_should_drop fuel cache v p now skb rnd = Some (drop, v', rnd')
    /\ dropping_call_effect p now v v'.
Proof.
  intros Hu Hfuel Hd Hot.
  destruct (cobalt_should_drop_returns fuel cache v p now skb rnd Hu Hfuel)
    as (drop & v2 & Hrun & _ & Hu1 & Hcase).
  rewrite Hot in Hcase, Hu1.
  destruct (codel_transition_frame true p now (set_ecn_marked false v))
    as (Hd1 & Hc1 & Hn1 & _).
  cbn [count drop_next dropping set_ecn_marked] in Hc1, Hn1.
  rewrite Hd in Hn1. cbn [andb negb] in Hc1, Hn1.
  pose proof (blue_verdict_vars drop v2 rnd) as Hv.
  destruct (blue_verdict drop v2 rnd) as [[d v'] rnd'] eqn:Hbv.
  simpl in Hv. subst v'.
  exists d, v2, rnd'. split; [exact Hrun|].
  unfold dropping_call_effect.
  destruct (next_due_of now v) eqn:Hnd; cbn [andb] in Hcase.
  - pose proof (next_due_of_count now v Hnd) as Hnz.
    destruct Hcase as [-> _].
    destruct (saturating_advance_frame cache p
                (set_ecn_marked (INET_ECN_set_ce skb)
                   (codel_transition true p now (set_ecn_marked false v))))
      as (Hc2 & Hn2 & _ & _ & Hd2 & _).
    cbn [count drop_next dropping set_ecn_marked] in Hc2, Hn2, Hd2.
    rewrite Hc1 in Hc2. rewrite Hn1 in Hn2.
    destruct (Z.eqb_spec (count v) 0) as [|_]; [contradiction|].
    unfold Saturating.sat_add in Hc2. unfold is_u32 in Hu.
    split; [congruence|].
    split; [rewrite Hc2; unfold is_u32; lia|].
    split; [lia|].
    split.
    { rewrite Hn2. unfold cobalt_control_law.
      rewrite u64_advance_signed; [apply reciprocal_scale_u32|].
      pose proof (reciprocal_scale_u32 (interval p)
        (u32 (Z.shiftl
                (rec_inv_sqrt
                   (Saturating.advance cache p
                      (set_ecn_marked (INET_ECN_set_ce skb)
                         (codel_transition true p now
                            (set_ecn_marked false v)))))
                REC_INV_SQRT_SHIFT))) as Hr.
      unfold U32_MAX in Hr. lia. }
    split; [intros _; split; assumption|discriminate].
  - destruct Hcase as (_ & _ & Hid & _).
    rewrite (Hid eq_refl).
    rewrite Hc1, Hn1, s64_diff_self. unfold is_u32 in *.
    split; [exact Hd1|].
    split; [destruct (count v =? 0); unfold U32_MAX in *; lia|].
    split; [destruct (Z.eqb_spec (count v) 0); lia|].
    split; [lia|].
    split; [discriminate|]. intros _. split; reflexivity.
Qed.

End DroppingFacts.

(** C8, as amended: in DROPPING state, over successive calls whose packets
    all have a sojourn time above [target], every call returns, the state
    stays DROPPING, [count] never goes down and [drop_next] never goes back.
    A call that is due adds one to [count], clamped at the largest u32, and
    moves [drop_next] on by the control law; a call that is not due leaves
    [drop_next] alone and [count] too, but for a zero [count], which
    becomes 1. *)
Theorem dropping_calls_never_go_back :
  forall (H : Host) (cache : list Z) (p : cobalt_params)
         (calls : list (Z * sk_buff)) (v : cobalt_vars)
         (rnd : prandom_state),
    (forall a b, 0 <= reciprocal_scale a b <= U32_MAX) ->
    is_u32 (count v) ->
    dropping v = true ->
    Forall (fun c => over_target_of p (fst c) (snd c) = true) calls ->
    dropping_calls cache p calls v rnd.
Proof.
  intros H cache p calls.
  induction calls as [|[now skb] calls IH]; intros v rnd Hscale Hu Hd Hall.
  - exact I.
  - inversion Hall as [|c l Hot Hrest]; subst. cbn [fst snd] in Hot.
    destruct (dropping_call Hscale (Z.to_nat (count v)) cache v p now skb
                rnd Hu (Nat.le_refl _) Hd Hot)
      as (drop & v' & rnd' & Hrun & Heff).
    cbn [dropping_calls]. exists drop, v', rnd'.
    split; [exact Hrun|]. split; [exact Heff|].
    destruct Heff as (Hd' & Hu' & _).
    apply IH; assumption.
Qed.

(** C8, as the specification words it, fails.  After the first call of the
    end-to-end scenario the controller is in DROPPING state with [count] 1
    and [drop_next] at 100 ms; a second packet with the same sojourn time
    of 6 ms, dequeued at 1 ms, is not due, and the call leaves [count]
    at 1. *)
Lemma count_unchanged_before_drop_next :
  cobalt_should_drop (H := sim_host) 0 built_table vars_zero sim_params 0
    sim_first_packet []
  = Some (false, sim_dropping_vars, [])
  /\ sojourn_of (H := sim_host) (MS2TIME 1) sim_second_packet
     = sojourn_of (H := sim_host) 0 sim_first_packet
  /\ over_target_of (H := sim_host) sim_params (MS2TIME 1) sim_second_packet
     = true
  /\ cobalt_should_drop (H := sim_host) 1 built_table sim_dropping_vars
       sim_params (MS2TIME 1) sim_second_packet []
     = Some (false, sim_dropping_vars, [])
  /\ ~ every_dropping_call_raises_count (H := sim_host).
Proof.
  assert (Hcall :
    cobalt_should_drop (H := sim_host) 1 built_table sim_dropping_vars
      sim_params (MS2TIME 1) sim_second_packet []
    = Some (false, sim_dropping_vars, [])) by (vm_compute; reflexivity).
  split; [vm_compute; reflexivity|].
  split; [vm_compute; reflexivity|].
  split; [vm_compute; reflexivity|].
  split; [exact Hcall|].
  intros Hclaim.
  assert (Hlt : count sim_dropping_vars < count sim_dropping_vars).
  { apply (Hclaim 1%nat built_table sim_params sim_dropping_vars (MS2TIME 1)
             sim_second_packet [] false sim_dropping_vars []).
    - split; vm_compute; split; discriminate.
    - reflexivity.
    - vm_compute; reflexivity.
    - exact Hcall. }
  lia.
Qed.

(** ** Worked examples *)

(** The table that [cobalt_cache_init] would leave. *)
Example built_table_entries :
  built_table
  = [4294967295; 4294967295; 3035289760; 2479700455; 2147483647;
     1920767767; 1753413055; 1623345051; 1518500250; 1431655765;
     1358187914; 1294981364; 1239850263; 1191209601; 1147878294;
     1108955788].
Proof. reflexivity. Qed.

(** One general-path step keeps the seed at [count = 1]. *)
Example newton_general_seed : cobalt_Newton_general 1 U32_MAX = U32_MAX.
Proof. reflexivity. Qed.

(** The second end-to-end scenario: [count] 1, [drop_next] 0, DROPPING, a
    packet with 6 ms of sojourn time at time 0 on a host that cannot mark.
    The packet is dropped, [count] becomes 2 and [drop_next] moves on by
    [interval] scaled by the table entry for 2. *)
Example due_packet_is_dropped :
  cobalt_should_drop (H := sim_host) 1 built_table
    (set_drop_next 0 sim_dropping_vars) sim_params 0 sim_first_packet []
  = Some (true,
          {| count := 2; rec_inv_sqrt := 3035289760;
             drop_next := sim_reciprocal_scale (MS2TIME 100) 3035289760;
             blue_timer := 0; p_drop := 0; dropping := true;
             ecn_marked := false |},
          []).
Proof. vm_compute. reflexivity. Qed.

(** The bound of [count] iterations on the resynchronisation loop is
    reached: with [count] 3, a stale schedule and a packet under target the
    loop runs three times. *)
Example resync_uses_count_iterations :
  cobalt_should_drop (H := sim_host) 2 built_table
    (set_dropping false sim_low_vars) sim_params (MS2TIME 1000)
    (sim_packet (MS2TIME 1000) 1 true) [5]
  = None
  /\ exists v' rnd',
       cobalt_should_drop (H := sim_host) 3 built_table
         (set_dropping false sim_low_vars) sim_params (MS2TIME 1000)
         (sim_packet (MS2TIME 1000) 1 true) [5]
       = Some (true, v', rnd')
       /\ count v' = 0.
Proof.
  split; [vm_compute; reflexivity|].
  eexists _, _. split; vm_compute; reflexivity.
Qed.

(** Two overflows at the same time stamp raise [p_drop] once; a third one
    more than [target] later raises it again. *)
Example queue_full_rate_limit :
  let v1 := cobalt_queue_full vars_zero sim_blue_params (MS2TIME 6) in
  let v2 := cobalt_queue_full v1 sim_blue_params (MS2TIME 6) in
  let v3 := cobalt_queue_full v2 sim_blue_params (MS2TIME 11 + 1) in
  p_drop v1 = 0x10000000 /\ p_drop v2 = 0x10000000
  /\ p_drop v3 = 0x20000000.
Proof. vm_compute. repeat split. Qed.

(** ** The theorems at concrete inputs *)

Lemma is_u32_0 : is_u32 0.
Proof. unfold is_u32, U32_MAX. lia. Defined.

Lemma is_u32_1 : is_u32 1.
Proof. unfold is_u32, U32_MAX. lia. Defined.

Lemma sim_reciprocal_scale_u32 a b :
  0 <= reciprocal_scale (Host := sim_host) a b <= U32_MAX.
Proof. apply u32_range. Qed.

Lemma count_and_p_drop_never_wrap_witness :
  wf_params sim_blue_params
  /\ wf_vars vars_zero
  /\ exists v' rnd',
       cobalt_run built_table sim_blue_params sim_events (vars_zero, [7])
       = Some (v', rnd')
       /\ Saturating.run built_table sim_blue_params sim_events
            (vars_zero, [7])
          = Some (v', rnd')
       /\ wf_vars v'.
Proof.
  assert (Hp : wf_params sim_blue_params)
    by (split; unfold is_u32, U32_MAX; simpl; lia).
  assert (Hv : wf_vars vars_zero) by (split; exact is_u32_0).
  split; [exact Hp|]. split; [exact Hv|].
  apply (count_and_p_drop_never_wrap sim_host built_table sim_blue_params
           sim_events vars_zero [7] Hp Hv).
Defined.

Lemma queue_full_effect_witness :
  is_u32 (p_drop sim_high_vars)
  /\ is_u32 (p_inc sim_blue_params)
  /\ p_drop (cobalt_queue_full sim_high_vars sim_blue_params (MS2TIME 6))
     = U32_MAX.
Proof.
  assert (Hp : is_u32 (p_drop sim_high_vars))
    by (unfold is_u32, U32_MAX; simpl; lia).
  assert (Hi : is_u32 (p_inc sim_blue_params))
    by (unfold is_u32, U32_MAX; simpl; lia).
  split; [exact Hp|]. split; [exact Hi|].
  destruct (queue_full_effect sim_high_vars sim_blue_params (MS2TIME 6)
              Hp Hi) as [Hupd _].
  destruct Hupd as [Hdrop _]; [vm_compute; reflexivity|].
  rewrite Hdrop. reflexivity.
Defined.

Lemma queue_empty_effect_witness :
  is_u32 (p_drop sim_low_vars)
  /\ is_u32 (p_dec sim_blue_params)
  /\ p_drop (cobalt_queue_empty sim_low_vars sim_blue_params (MS2TIME 6)) = 0
  /\ dropping (cobalt_queue_empty sim_low_vars sim_blue_params (MS2TIME 6))
     = false.
Proof.
  assert (Hp : is_u32 (p_drop sim_low_vars))
    by (unfold is_u32, U32_MAX; simpl; lia).
  assert (Hd : is_u32 (p_dec sim_blue_params))
    by (unfold is_u32, U32_MAX; simpl; lia).
  split; [exact Hp|]. split; [exact Hd|].
  destruct (queue_empty_effect sim_low_vars sim_blue_params (MS2TIME 6)
              Hp Hd) as (Hupd & _ & Hdropping & _).
  split; [|exact Hdropping].
  destruct Hupd as (_ & Hzero & _); [vm_compute; reflexivity|].
  apply Hzero. vm_compute. reflexivity.
Defined.

Lemma cache_build_agrees_with_general_path_example :
  exists g',
    cobalt_cache_build 15 vars_zero boot_globals = Some g'
    /\ cache_at (cobalt_rec_inv_sqrt_cache g') 2
       = table_by_general_path 2
    /\ rec_inv_sqrt
         (cobalt_Newton_step (cobalt_rec_inv_sqrt_cache g')
            (set_count 2 vars_zero))
       = table_by_general_path 2.
Proof.
  destruct (cache_build_agrees_with_general_path 15 vars_zero boot_globals
              (Nat.le_refl 15) eq_refl) as (g' & Hbuild & Hentries).
  exists g'. split; [exact Hbuild|].
  destruct (Hentries 2) as [Hentry Hstep]; [unfold REC_INV_SQRT_CACHE; lia|].
  split; [exact Hentry|]. apply Hstep. reflexivity.
Qed.

Lemma should_drop_leaves_p_drop_and_blue_timer_witness :
  is_u32 (count sim_low_vars)
  /\ (Z.to_nat (count sim_low_vars) <= 3)%nat
  /\ exists drop v' rnd',
       cobalt_should_drop (H := sim_host) 3 built_table sim_low_vars
         sim_params (MS2TIME 100) sim_late_packet [7]
       = Some (drop, v', rnd')
       /\ p_drop v' = p_drop sim_low_vars
       /\ blue_timer v' = blue_timer sim_low_vars.
Proof.
  assert (Hu : is_u32 (count sim_low_vars))
    by (unfold is_u32, U32_MAX; simpl; lia).
  assert (Hfuel : (Z.to_nat (count sim_low_vars) <= 3)%nat)
    by (simpl; lia).
  split; [exact Hu|]. split; [exact Hfuel|].
  apply (should_drop_leaves_p_drop_and_blue_timer sim_host 3 built_table
           sim_low_vars sim_params (MS2TIME 100) sim_late_packet [7]
           Hu Hfuel).
Defined.

Lemma first_packet_over_target_witness :
  target sim_params = MS2TIME 5
  /\ interval sim_params = MS2TIME 100
  /\ sojourn_of (H := sim_host) 0 sim_first_packet = MS2TIME 6
  /\ cobalt_should_drop (H := sim_host) 0 built_table vars_zero sim_params 0
       sim_first_packet []
     = Some (false,
             {| count := 1; rec_inv_sqrt := 0; drop_next := MS2TIME 100;
                blue_timer := 0; p_drop := 0; dropping := true;
                ecn_marked := false |},
             []).
Proof.
  assert (Hs : sojourn_of (H := sim_host) 0 sim_first_packet = MS2TIME 6)
    by (vm_compute; reflexivity).
  split; [reflexivity|]. split; [reflexivity|]. split; [exact Hs|].
  apply (first_packet_over_target sim_host 0 built_table sim_params
           sim_first_packet [] eq_refl eq_refl Hs).
Defined.

Lemma dropping_calls_never_go_back_witness :
  (forall a b, 0 <= reciprocal_scale (Host := sim_host) a b <= U32_MAX)
  /\ is_u32 (count sim_dropping_vars)
  /\ dropping sim_dropping_vars = true
  /\ dropping_calls (H := sim_host) built_table sim_params
       [(MS2TIME 1, sim_second_packet); (MS2TIME 100, sim_late_packet)]
       sim_dropping_vars [].
Proof.
  assert (Hall :
    Forall (fun c => over_target_of (H := sim_host) sim_params (fst c) (snd c)
                     = true)
      [(MS2TIME 1, sim_second_packet); (MS2TIME 100, sim_late_packet)]).
  { repeat constructor; vm_compute; reflexivity. }
  split; [exact sim_reciprocal_scale_u32|].
  split; [exact is_u32_1|]. split; [reflexivity|].
  apply (dropping_calls_never_go_back sim_host built_table sim_params _
           sim_dropping_vars [] sim_reciprocal_scale_u32 is_u32_1 eq_refl
           Hall).
Defined.

Lemma threshold_has_no_effect_witness :
  differ_only_in_threshold sim_params sim_params_threshold
  /\ threshold sim_params <> threshold sim_params_threshold
  /\ cobalt_should_drop (H := sim_host) 1 built_table sim_dropping_vars
       sim_params (MS2TIME 100) sim_late_packet []
     = cobalt_should_drop (H := sim_host) 1 built_table sim_dropping_vars
         sim_params_threshold (MS2TIME 100) sim_late_packet [].
Proof.
  assert (Hd : differ_only_in_threshold sim_params sim_params_threshold)
    by (repeat split; reflexivity).
  split; [exact Hd|]. split; [vm_compute; discriminate|].
  apply (threshold_has_no_effect sim_host 1 built_table sim_dropping_vars
           sim_params sim_params_threshold (MS2TIME 100) sim_late_packet []
           Hd).
Defined.

Lemma should_drop_ecn_marked_is_this_packet_witness :
  is_u32 (count sim_dropping_vars)
  /\ (Z.to_nat (count sim_dropping_vars) <= 1)%nat
  /\ exists drop v' rnd',
       cobalt_should_drop (H := sim_host) 1 built_table
         (set_ecn_marked true sim_dropping_vars) sim_params (MS2TIME 1)
         sim_second_packet []
       = Some (drop, v', rnd')
       /\ ecn_marked v' = false.
Proof.
  assert (Hfuel : (Z.to_nat (count sim_dropping_vars) <= 1)%nat)
    by (simpl; lia).
  split; [exact is_u32_1|]. split; [exact Hfuel|].
  destruct (should_drop_ecn_marked_is_this_packet sim_host 1 built_table
              sim_dropping_vars sim_params (MS2TIME 1) sim_second_packet []
              is_u32_1 Hfuel)
    as (drop & v' & rnd' & _ & _ & Hecn & Hany).
  exists drop, v', rnd'. split; [apply Hany|].
  rewrite Hecn. reflexivity.
Defined.


(** * Further properties of the code *)

(** ** The resynchronisation loop *)

Section ResyncFacts.

Context {H : Host}.

Lemma codel_resync_not_due fuel cache p now v v' :
  codel_resync fuel cache p now v (next_due_of now v) = Some v' ->
  next_due_of now v' = false.
Proof.
  revert v. induction fuel as [|fuel IH]; intros v Hrun.
  - destruct (next_due_of now v) eqn:Hnd; [discriminate|].
    simpl in Hrun. injection Hrun as <-. exact Hnd.
  - destruct (next_due_of now v) eqn:Hnd.
    + simpl in Hrun. apply IH in Hrun. exact Hrun.
    + simpl in Hrun. injection Hrun as <-. exact Hnd.
Qed.

Lemma codel_resync_counts cache p now v next_due :
  is_u32 (count v) ->
  (next_due = true -> count v <> 0) ->
  exists (n : nat) (v' : cobalt_vars),
    Z.of_nat n <= count v
    /\ count v' = count v - Z.of_nat n
    /\ (forall fuel, (n <= fuel)%nat ->
          codel_resync fuel cache p now v next_due = Some v')
    /\ (forall fuel, (fuel < n)%nat ->
          codel_resync fuel cache p now v next_due = None).
Proof.
  intros Hu.
  remember (Z.to_nat (count v)) as k eqn:Hk.
  revert v next_due Hu Hk.
  induction k as [|k IH]; intros v next_due Hu Hk Hnz.
  - destruct next_due.
    + specialize (Hnz eq_refl). unfold is_u32 in Hu. lia.
    + exists 0%nat, v. unfold is_u32 in Hu.
      split; [lia|]. split; [lia|].
      split; [intros [|fuel] _; reflexivity|]. intros fuel Hlt. lia.
  - destruct next_due.
    + specialize (Hnz eq_refl).
      destruct (codel_step_back_frame cache p v) as [Hc _].
      rewrite u32_pred in Hc by assumption.
      unfold is_u32 in Hu.
      destruct (IH (codel_step_back cache p v)
                  (next_due_of now (codel_step_back cache p v)))
        as (n & v' & Hle & Hcnt & Hsome & Hnone).
      * unfold is_u32. lia.
      * lia.
      * apply next_due_of_count.
      * exists (S n), v'.
        split; [lia|]. split; [lia|]. split.
        -- intros [|fuel] Hfuel; [lia|]. simpl. apply Hsome. lia.
        -- intros [|fuel] Hfuel; [reflexivity|]. simpl. apply Hnone. lia.
    + exists 0%nat, v. unfold is_u32 in Hu.
      split; [lia|]. split; [lia|].
      split; [intros [|fuel] _; reflexivity|]. intros fuel Hlt. lia.
Qed.

End ResyncFacts.

(** X1: the [while] loop of [cobalt_should_drop] stops after a number [n]
    of iterations that is at most [count]; it leaves [count] lowered by
    exactly [n], and with the packet's schedule no longer due. *)
Theorem resync_loop_iterations :
  forall (H : Host) (cache : list Z) (p : cobalt_params) (now : Z)
         (v : cobalt_vars),
    is_u32 (count v) ->
    exists (n : nat) (v' : cobalt_vars),
      Z.of_nat n <= count v
      /\ count v' = count v - Z.of_nat n
      /\ next_due_of now v' = false
      /\ (forall fuel, (n <= fuel)%nat ->
            codel_resync fuel cache p now v (next_due_of now v) = Some v')
      /\ (forall fuel, (fuel < n)%nat ->
            codel_resync fuel cache p now v (next_due_of now v) = None).
Proof.
  intros H cache p now v Hu.
  destruct (codel_resync_counts cache p now v (next_due_of now v) Hu
              (next_due_of_count now v))
    as (n & v' & Hle & Hcnt & Hsome & Hnone).
  exists n, v'. repeat split; try assumption.
  apply (codel_resync_not_due n cache p now v).
  apply Hsome. apply Nat.le_refl.
Qed.

(** ** The verdict *)

Section VerdictFacts.

Context {H : Host}.

Lemma cobalt_should_drop_under_target fuel cache v p now skb rnd :
  over_target_of p now skb = false ->
  cobalt_should_drop fuel cache v p now skb rnd
  = match codel_resync fuel cache p now
            (set_dropping false (set_ecn_marked false v))
            (next_due_of now v) with
    | None => None
    | Some v2 => Some (blue_verdict false v2 rnd)
    end
  /\ next_due_of now (set_dropping false (set_ecn_marked false v))
     = next_due_of now v.
Proof.
  intros Hot. split; [|reflexivity].
  unfold cobalt_should_drop. rewrite Hot.
  unfold codel_transition. cbn [dropping set_ecn_marked].
  destruct (dropping v) eqn:Hd.
  - cbn [dropping set_dropping]. rewrite andb_false_r.
    destruct (codel_resync fuel cache p now
                (set_dropping false (set_ecn_marked false v))
                (next_due_of now v)); reflexivity.
  - cbn [dropping set_ecn_marked]. rewrite Hd, andb_false_r.
    replace (set_dropping false (set_ecn_marked false v))
      with (set_ecn_marked false v).
    + destruct (codel_resync fuel cache p now (set_ecn_marked false v)
                  (next_due_of now v)); reflexivity.
    + destruct v. cbn in Hd. subst. reflexivity.
Qed.

End VerdictFacts.

(** X2: a call with a packet whose sojourn time is not above [target]
    returns with the controller not dropping, the packet unmarked, [count]
    not raised and no action due at [now] any more; CoDel does not drop the
    packet, so with [p_drop] 0 the verdict is false and no random number is
    drawn. *)
Theorem packet_under_target_resynchronises :
  forall (H : Host) (fuel : nat) (cache : list Z) (v : cobalt_vars)
         (p : cobalt_params) (now : Z) (skb : sk_buff)
         (rnd : prandom_state),
    is_u32 (count v) ->
    (Z.to_nat (count v) <= fuel)%nat ->
    over_target_of p now skb = false ->
    exists drop v' rnd',
      cobalt_should_drop fuel cache v p now skb rnd = Some (drop, v', rnd')
      /\ dropping v' = false
      /\ ecn_marked v' = false
      /\ 0 <= count v' <= count v
      /\ next_due_of now v' = false
      /\ (p_drop v = 0 -> drop = false /\ rnd' = rnd).
Proof.
  intros H fuel cache v p now skb rnd Hu Hfuel Hot.
  destruct (cobalt_should_drop_under_target fuel cache v p now skb rnd Hot)
    as [Hsd Hnd].
  destruct (codel_resync_returns fuel cache p now
              (set_dropping false (set_ecn_marked false v))
              (next_due_of now v))
    as (v2 & Hrun & _ & Hcnt & (Hp & _ & Hd & He) & _);
    [exact Hu|exact (next_due_of_count now v)|exact Hfuel|].
  cbn [count p_drop dropping ecn_marked set_dropping set_ecn_marked]
    in Hcnt, Hp, Hd, He.
  rewrite Hrun in Hsd.
  pose proof Hrun as Hdue. rewrite <- Hnd in Hdue.
  apply codel_resync_not_due in Hdue.
  pose proof (blue_verdict_vars false v2 rnd) as Hv.
  destruct (blue_verdict false v2 rnd) as [[d v'] rnd'] eqn:Hbv.
  simpl in Hv. subst v'.
  exists d, v2, rnd'.
  split; [exact Hsd|]. split; [exact Hd|]. split; [exact He|].
  split; [exact Hcnt|]. split; [exact Hdue|].
  intros Hz. rewrite blue_verdict_idle in Hbv by congruence.
  split; congruence.
Qed.

(** X3: the verdict of [cobalt_should_drop] is true exactly when the packet
    is due in DROPPING state and cannot be marked, or [p_drop] is not zero
    and the random draw is below it; the generator moves on by one draw when
    [p_drop] is not zero and not at all when it is. *)
Theorem should_drop_verdict :
  forall (H : Host) (fuel : nat) (cache : list Z) (v : cobalt_vars)
         (p : cobalt_params) (now : Z) (skb : sk_buff)
         (rnd : prandom_state),
    is_u32 (count v) ->
    (Z.to_nat (count v) <= fuel)%nat ->
    exists drop v' rnd',
      cobalt_should_drop fuel cache v p now skb rnd = Some (drop, v', rnd')
      /\ drop
         = (next_due_of now v && over_target_of p now skb
            && negb (INET_ECN_set_ce skb))
           || (negb (p_drop v =? 0)
               && (fst (prandom_u32 rnd) <? p_drop v))
      /\ rnd' = (if p_drop v =? 0 then rnd else snd (prandom_u32 rnd)).
Proof.
  intros H fuel cache v p now skb rnd Hu Hfuel.
  destruct (cobalt_should_drop_returns fuel cache v p now skb rnd Hu Hfuel)
    as (drop & v2 & Hrun & _ & _ & Hcase).
  destruct (codel_transition_frame (over_target_of p now skb) p now
              (set_ecn_marked false v))
    as (_ & _ & _ & _ & Hp1 & _).
  cbn [p_drop set_ecn_marked] in Hp1.
  assert (Hfacts :
    p_drop v2 = p_drop v
    /\ drop = next_due_of now v && over_target_of p now skb
              && negb (INET_ECN_set_ce skb)).
  { destruct (next_due_of now v && over_target_of p now skb).
    - destruct Hcase as [-> ->].
      destruct (saturating_advance_frame cache p
                  (set_ecn_marked (INET_ECN_set_ce skb)
                     (codel_transition (over_target_of p now skb) p now
                        (set_ecn_marked false v))))
        as (_ & _ & Hp2 & _).
      cbn [p_drop set_ecn_marked] in Hp2.
      split; [congruence|reflexivity].
    - destruct Hcase as (_ & (Hp2 & _) & _ & ->).
      split; [congruence|reflexivity]. }
  destruct Hfacts as [Hp2 Hdrop].
  rewrite Hrun. unfold blue_verdict. rewrite Hp2, <- Hdrop.
  destruct (p_drop v =? 0); cbn [negb andb].
  - exists drop, v2, rnd. rewrite orb_false_r. repeat split.
  - destruct (prandom_u32 rnd) as [x rnd'].
    exists (drop || (x <? p_drop v)), v2, rnd'. repeat split.
Qed.

Section EnteringFacts.

Context {H : Host}.

Lemma blue_verdict_keeps_drop v rnd :
  fst (fst (blue_verdict true v rnd)) = true.
Proof.
  unfold blue_verdict.
  destruct (negb (p_drop v =? 0)); [|reflexivity].
  destruct (prandom_u32 rnd). reflexivity.
Qed.

Lemma cobalt_queue_full_codel v p now :
  dropping (cobalt_queue_full v p now) = true
  /\ drop_next (cobalt_queue_full v p now) = now
  /\ count (cobalt_queue_full v p now)
     = (if count v =? 0 then 1 else count v).
Proof.
  unfold cobalt_queue_full.
  destruct (target p <? u64 (now - blue_timer v)); cbn;
    [destruct (u32 (p_drop v + p_inc p) <? p_inc p); cbn|];
    destruct (count v =? 0); cbn; repeat split.
Qed.

End EnteringFacts.

(** X4: a call that finds the controller not dropping and a packet above
    [target] enters DROPPING state and restarts the schedule at
    [now + interval].  If a stale schedule with a non-zero [count] was due,
    the packet itself is acted on at once (marked if it can be) and the
    schedule moves one control-law step past [now + interval]; otherwise the
    packet is left alone and only a zero [count] becomes 1. *)
Theorem entering_dropping_state :
  forall (H : Host) (fuel : nat) (cache : list Z) (v : cobalt_vars)
         (p : cobalt_params) (now : Z) (skb : sk_buff)
         (rnd : prandom_state),
    is_u32 (count v) ->
    (Z.to_nat (count v) <= fuel)%nat ->
    dropping v = false ->
    over_target_of p now skb = true ->
    exists drop v' rnd',
      cobalt_should_drop fuel cache v p now skb rnd = Some (drop, v', rnd')
      /\ dropping v' = true
      /\ (next_due_of now v = true ->
            ecn_marked v' = INET_ECN_set_ce skb
            /\ count v' = Z.min (count v + 1) U32_MAX
            /\ drop_next v'
               = cobalt_control_law (u64 (now + interval p)) (interval p)
                   (rec_inv_sqrt v'))
      /\ (next_due_of now v = false ->
            ecn_marked v' = false
            /\ count v' = (if count v =? 0 then 1 else count v)
            /\ drop_next v' = u64 (now + interval p)
            /\ rec_inv_sqrt v' = rec_inv_sqrt v).
Proof.
  intros H fuel cache v p now skb rnd Hu Hfuel Hd Hot.
  destruct (cobalt_should_drop_returns fuel cache v p now skb rnd Hu Hfuel)
    as (drop & v2 & Hrun & _ & _ & Hcase).
  rewrite Hot in Hcase.
  destruct (codel_transition_frame true p now (set_ecn_marked false v))
    as (Hd1 & Hc1 & Hn1 & Hr1 & _ & _ & He1).
  cbn [count drop_next dropping rec_inv_sqrt ecn_marked set_ecn_marked]
    in Hc1, Hn1, Hr1, He1.
  rewrite Hd in Hn1. cbn [andb negb] in Hc1, Hn1.
  pose proof (blue_verdict_vars drop v2 rnd) as Hv.
  destruct (blue_verdict drop v2 rnd) as [[d v'] rnd'] eqn:Hbv.
  simpl in Hv. subst v'.
  exists d, v2, rnd'. split; [exact Hrun|].
  destruct (next_due_of now v) eqn:Hnd; cbn [andb] in Hcase.
  - pose proof (next_due_of_count now v Hnd) as Hnz.
    destruct Hcase as [-> _].
    destruct (saturating_advance_frame cache p
                (set_ecn_marked (INET_ECN_set_ce skb)
                   (codel_transition true p now (set_ecn_marked false v))))
      as (Hc2 & Hn2 & _ & _ & Hd2 & He2).
    cbn [count drop_next dropping ecn_marked set_ecn_marked]
      in Hc2, Hn2, Hd2, He2.
    rewrite Hc1 in Hc2. rewrite Hn1 in Hn2.
    destruct (Z.eqb_spec (count v) 0) as [|_]; [contradiction|].
    split; [congruence|].
    split; [|discriminate]. intros _.
    split; [exact He2|]. split; [exact Hc2|exact Hn2].
  - destruct Hcase as (_ & _ & Hid & _).
    rewrite (Hid eq_refl).
    split; [exact Hd1|]. split; [discriminate|]. intros _.
    split; [exact He1|]. split; [exact Hc1|]. split; [exact Hn1|exact Hr1].
Qed.

(** X5: after [cobalt_queue_full] at [now1], the next packet dequeued at the
    same or a later time [now2] with a sojourn time above [target] is due:
    the call marks it if it can be marked and returns true if it cannot, and
    [count] goes up by one from the value that [cobalt_queue_full] left. *)
Theorem queue_full_makes_next_packet_due :
  forall (H : Host) (fuel : nat) (cache : list Z) (v0 : cobalt_vars)
         (p : cobalt_params) (now1 now2 : Z) (skb : sk_buff)
         (rnd : prandom_state),
    is_u32 (count v0) ->
    (Z.to_nat (count (cobalt_queue_full v0 p now1)) <= fuel)%nat ->
    0 <= s64 (now2 - now1) ->
    over_target_of p now2 skb = true ->
    exists drop v' rnd',
      cobalt_should_drop fuel cache (cobalt_queue_full v0 p now1) p now2
        skb rnd
      = Some (drop, v', rnd')
      /\ dropping v' = true
      /\ ecn_marked v' = INET_ECN_set_ce skb
      /\ (INET_ECN_set_ce skb = false -> drop = true)
      /\ count v'
         = Z.min ((if count v0 =? 0 then 1 else count v0) + 1) U32_MAX.
Proof.
  intros H fuel cache v0 p now1 now2 skb rnd Hu Hfuel Hlate Hot.
  destruct (cobalt_queue_full_codel v0 p now1) as (Hd & Hn & Hc).
  assert (Hu1 : is_u32 (count (cobalt_queue_full v0 p now1))).
  { rewrite Hc. destruct (count v0 =? 0); [exact is_u32_1|exact Hu]. }
  assert (Hnd : next_due_of now2 (cobalt_queue_full v0 p now1) = true).
  { unfold next_due_of, schedule_of. rewrite Hn, Hc.
    apply andb_true_intro. split.
    - destruct (Z.eqb_spec (count v0) 0) as [Hz|Hnz]; [reflexivity|].
      destruct (Z.eqb_spec (count v0) 0); [contradiction|reflexivity].
    - apply Z.leb_le. exact Hlate. }
  destruct (cobalt_should_drop_returns fuel cache
              (cobalt_queue_full v0 p now1) p now2 skb rnd Hu1 Hfuel)
    as (drop & v2 & Hrun & _ & _ & Hcase).
  rewrite Hnd, Hot in Hcase. cbn [andb] in Hcase.
  destruct Hcase as [Hv2 Hdrop].
  destruct (codel_transition_frame true p now2
              (set_ecn_marked false (cobalt_queue_full v0 p now1)))
    as (Hd1 & Hc1 & _).
  cbn [count set_ecn_marked] in Hc1.
  destruct (saturating_advance_frame cache p
              (set_ecn_marked (INET_ECN_set_ce skb)
                 (codel_transition true p now2
                    (set_ecn_marked false (cobalt_queue_full v0 p now1)))))
    as (Hc2 & _ & _ & _ & Hd2 & He2).
  cbn [count dropping ecn_marked set_ecn_marked] in Hc2, Hd2, He2.
  rewrite <- Hv2 in Hc2, Hd2, He2.
  pose proof (blue_verdict_vars drop v2 rnd) as Hv.
  pose proof (blue_verdict_keeps_drop v2 rnd) as Hkeep.
  destruct (blue_verdict drop v2 rnd) as [[d v'] rnd'] eqn:Hbv.
  simpl in Hv. subst v'.
  exists d, v2, rnd'. split; [exact Hrun|].
  split; [congruence|]. split; [exact He2|]. split.
  - intros Hce. rewrite Hce in Hdrop. cbn in Hdrop. subst drop.
    rewrite Hbv in Hkeep. exact Hkeep.
  - rewrite Hc2, Hc1, Hc. unfold Saturating.sat_add. cbn [andb].
    destruct (Z.eqb_spec (count v0) 0) as [Hz|Hnz]; [reflexivity|].
    destruct (Z.eqb_spec (count v0) 0); [contradiction|reflexivity].
Qed.

(** X6: the sojourn time is signed and [target] unsigned, and C compares
    them as unsigned: a packet whose enqueue time lies after [now], so that
    its sojourn time is negative, counts as above every [target] below
    [2^63]. *)
Theorem negative_sojourn_is_over_target :
  forall (H : Host) (p : cobalt_params) (now : Z) (skb : sk_buff),
    sojourn_of now skb < 0 ->
    0 <= target p < 2 ^ 63 ->
    over_target_of p now skb = true.
Proof.
  intros H p now skb Hneg Ht.
  unfold over_target_of. apply Z.ltb_lt.
  unfold sojourn_of, s64, u64 in *.
  pose proof (Z.mod_pos_bound (now - cobalt_get_enqueue_time skb) (2 ^ 64))
    as Hb.
  destruct (Z.ltb_spec ((now - cobalt_get_enqueue_time skb) mod 2 ^ 64)
              (2 ^ 63)) as [Hlo|Hhi]; [lia|].
  rewrite <- (Z_mod_plus_full _ 1). rewrite Z.mod_small; lia.
Qed.

(** ** The BLUE timer *)

Lemma u64_diff_self now : u64 (now - now) = 0.
Proof. rewrite Z.sub_diag. reflexivity. Qed.

Lemma cobalt_queue_full_blue v p now :
  target p < u64 (now - blue_timer v) ->
  blue_timer (cobalt_queue_full v p now) = now.
Proof.
  intros Hlim. unfold cobalt_queue_full.
  destruct (Z.ltb_spec (target p) (u64 (now - blue_timer v))); [|lia].
  cbn. destruct (u32 (p_drop v + p_inc p) <? p_inc p); cbn;
    destruct (count v =? 0); reflexivity.
Qed.

Lemma cobalt_queue_empty_blue v p now :
  target p < u64 (now - blue_timer v) ->
  blue_timer (cobalt_queue_empty v p now) = now.
Proof.
  intros Hlim. unfold cobalt_queue_empty.
  destruct (Z.ltb_spec (target p) (u64 (now - blue_timer v))); [|lia].
  destruct (p_drop v <? p_dec p); reflexivity.
Qed.

Lemma cobalt_queue_full_limited v p now :
  u64 (now - blue_timer v) <= target p ->
  p_drop (cobalt_queue_full v p now) = p_drop v
  /\ blue_timer (cobalt_queue_full v p now) = blue_timer v.
Proof.
  intros Hlim. unfold cobalt_queue_full.
  destruct (Z.ltb_spec (target p) (u64 (now - blue_timer v))); [lia|].
  cbn. destruct (count v =? 0); split; reflexivity.
Qed.

Lemma cobalt_queue_empty_limited v p now :
  u64 (now - blue_timer v) <= target p ->
  p_drop (cobalt_queue_empty v p now) = p_drop v
  /\ blue_timer (cobalt_queue_empty v p now) = blue_timer v.
Proof.
  intros Hlim. unfold cobalt_queue_empty.
  destruct (Z.ltb_spec (target p) (u64 (now - blue_timer v))); [lia|].
  split; reflexivity.
Qed.

(** X7: [cobalt_queue_full] and [cobalt_queue_empty] share one timer.  Once
    either of them has updated [p_drop] at [now1], a call of either at a
    time [now2] no more than [target] later changes neither [p_drop] nor
    [blue_timer]: an overflow cannot raise the probability right after a
    drain has lowered it, nor the other way round. *)
Theorem blue_rate_limit_is_shared :
  forall (v : cobalt_vars) (p : cobalt_params) (now1 now2 : Z),
    target p < u64 (now1 - blue_timer v) ->
    u64 (now2 - now1) <= target p ->
    let full := cobalt_queue_full v p now1 in
    let empty := cobalt_queue_empty v p now1 in
    (p_drop (cobalt_queue_full full p now2) = p_drop full
     /\ blue_timer (cobalt_queue_full full p now2) = now1)
    /\ (p_drop (cobalt_queue_empty full p now2) = p_drop full
        /\ blue_timer (cobalt_queue_empty full p now2) = now1)
    /\ (p_drop (cobalt_queue_full empty p now2) = p_drop empty
        /\ blue_timer (cobalt_queue_full empty p now2) = now1)
    /\ (p_drop (cobalt_queue_empty empty p now2) = p_drop empty
        /\ blue_timer (cobalt_queue_empty empty p now2) = now1).
Proof.
  intros v p now1 now2 Hupd Hnear full empty.
  pose proof (cobalt_queue_full_blue v p now1 Hupd) as Hf.
  pose proof (cobalt_queue_empty_blue v p now1 Hupd) as He.
  fold full in Hf. fold empty in He.
  assert (Hlf : u64 (now2 - blue_timer full) <= target p)
    by (rewrite Hf; exact Hnear).
  assert (Hle : u64 (now2 - blue_timer empty) <= target p)
    by (rewrite He; exact Hnear).
  destruct (cobalt_queue_full_limited full p now2 Hlf) as [Hp1 Hb1].
  destruct (cobalt_queue_empty_limited full p now2 Hlf) as [Hp2 Hb2].
  destruct (cobalt_queue_full_limited empty p now2 Hle) as [Hp3 Hb3].
  destruct (cobalt_queue_empty_limited empty p now2 Hle) as [Hp4 Hb4].
  repeat split; congruence.
Qed.

(** X8: with a [target] that is not negative, calling [cobalt_queue_full]
    or [cobalt_queue_empty] a second time at the same time stamp changes
    nothing at all. *)
Theorem blue_calls_are_idempotent_at_one_time :
  forall (v : cobalt_vars) (p : cobalt_params) (now : Z),
    0 <= target p ->
    cobalt_queue_full (cobalt_queue_full v p now) p now
    = cobalt_queue_full v p now
    /\ cobalt_queue_empty (cobalt_queue_empty v p now) p now
       = cobalt_queue_empty v p now.
Proof.
  intros v p now Ht. split.
  - unfold cobalt_queue_full at 1.
    destruct (Z.ltb_spec (target p) (u64 (now - blue_timer v)))
      as [Hupd|Hlim].
    + rewrite (cobalt_queue_full_blue v p now Hupd), u64_diff_self.
      destruct (Z.ltb_spec (target p) 0) as [|_]; [lia|].
      destruct (cobalt_queue_full_codel v p now) as (Hd & Hn & Hc).
      assert (Hnz : (count (cobalt_queue_full v p now) =? 0) = false).
      { rewrite Hc. destruct (Z.eqb_spec (count v) 0) as [|Hnz];
          [reflexivity|]. apply Z.eqb_neq. exact Hnz. }
      cbn [count set_drop_next set_dropping]. rewrite Hnz.
      destruct (cobalt_queue_full v p now). cbn in Hd, Hn. subst.
      reflexivity.
    + destruct (cobalt_queue_full_limited v p now Hlim) as [_ Hb].
      rewrite Hb.
      destruct (Z.ltb_spec (target p) (u64 (now - blue_timer v)));
        [lia|].
      destruct (cobalt_queue_full_codel v p now) as (Hd & Hn & Hc).
      assert (Hnz : (count (cobalt_queue_full v p now) =? 0) = false).
      { rewrite Hc. destruct (Z.eqb_spec (count v) 0) as [|Hnz];
          [reflexivity|]. apply Z.eqb_neq. exact Hnz. }
      cbn [count set_drop_next set_dropping]. rewrite Hnz.
      destruct (cobalt_queue_full v p now). cbn in Hd, Hn. subst.
      reflexivity.
  - unfold cobalt_queue_empty at 1.
    assert (Hdrop : dropping (cobalt_queue_empty v p now) = false)
      by (unfold cobalt_queue_empty; reflexivity).
    destruct (Z.ltb_spec (target p) (u64 (now - blue_timer v)))
      as [Hupd|Hlim].
    + rewrite (cobalt_queue_empty_blue v p now Hupd), u64_diff_self.
      destruct (Z.ltb_spec (target p) 0) as [|_]; [lia|].
      destruct (cobalt_queue_empty v p now). cbn in Hdrop. subst.
      reflexivity.
    + destruct (cobalt_queue_empty_limited v p now Hlim) as [_ Hb].
      rewrite Hb.
      destruct (Z.ltb_spec (target p) (u64 (now - blue_timer v)));
        [lia|].
      destruct (cobalt_queue_empty v p now). cbn in Hdrop. subst.
      reflexivity.
Qed.

(** ** Runs of overflows and of drains *)

Lemma queue_full_at_cons p now nows v :
  queue_full_at p (now :: nows) v
  = queue_full_at p nows (cobalt_queue_full v p now).
Proof. reflexivity. Qed.

Lemma queue_empty_at_cons p now nows v :
  queue_empty_at p (now :: nows) v
  = queue_empty_at p nows (cobalt_queue_empty v p now).
Proof. reflexivity. Qed.

(** X9: [n] overflows, each more than [target] after the one before, leave
    [p_drop] at its old value plus [n] times [p_inc], clamped at the largest
    u32: the probability climbs to the top and stays there. *)
Theorem repeated_queue_full_saturates :
  forall (p : cobalt_params) (nows : list Z) (v : cobalt_vars),
    is_u32 (p_drop v) ->
    is_u32 (p_inc p) ->
    spaced_by_target p (blue_timer v) nows ->
    p_drop (queue_full_at p nows v)
    = Z.min (p_drop v + Z.of_nat (length nows) * p_inc p) U32_MAX.
Proof.
  intros p nows. induction nows as [|now nows IH]; intros v Hp Hi Hsp.
  - unfold is_u32 in Hp. cbn. lia.
  - destruct Hsp as [Hupd Hrest].
    rewrite queue_full_at_cons.
    pose proof (cobalt_queue_full_blue v p now Hupd) as Hb.
    assert (Hstep : p_drop (cobalt_queue_full v p now)
                    = Z.min (p_drop v + p_inc p) U32_MAX).
    { rewrite cobalt_queue_full_saturating by assumption.
      unfold Saturating.queue_full, Saturating.sat_add.
      destruct (Z.ltb_spec (target p) (u64 (now - blue_timer v))); [|lia].
      cbn. destruct (count v =? 0); reflexivity. }
    rewrite IH.
    + rewrite Hstep. cbn [length]. rewrite Nat2Z.inj_succ, Z.mul_succ_l.
      unfold is_u32 in Hp, Hi.
      pose proof (Z.mul_nonneg_nonneg (Z.of_nat (length nows)) (p_inc p)
                    (Nat2Z.is_nonneg _) (proj1 Hi)).
      lia.
    + rewrite Hstep. unfold is_u32 in *. unfold U32_MAX in *. lia.
    + exact Hi.
    + rewrite Hb. exact Hrest.
Qed.

(** X10: [n] drains, each more than [target] after the one before, leave
    [p_drop] at its old value minus [n] times [p_dec], floored at 0. *)
Theorem repeated_queue_empty_floors :
  forall (p : cobalt_params) (nows : list Z) (v : cobalt_vars),
    is_u32 (p_drop v) ->
    is_u32 (p_dec p) ->
    spaced_by_target p (blue_timer v) nows ->
    p_drop (queue_empty_at p nows v)
    = Z.max (p_drop v - Z.of_nat (length nows) * p_dec p) 0.
Proof.
  intros p nows. induction nows as [|now nows IH]; intros v Hp Hd Hsp.
  - unfold is_u32 in Hp. cbn. lia.
  - destruct Hsp as [Hupd Hrest].
    rewrite queue_empty_at_cons.
    pose proof (cobalt_queue_empty_blue v p now Hupd) as Hb.
    assert (Hstep : p_drop (cobalt_queue_empty v p now)
                    = Z.max (p_drop v - p_dec p) 0).
    { rewrite cobalt_queue_empty_saturating by assumption.
      unfold Saturating.queue_empty, Saturating.floor_sub.
      destruct (Z.ltb_spec (target p) (u64 (now - blue_timer v))); [|lia].
      reflexivity. }
    rewrite IH.
    + rewrite Hstep. cbn [length]. rewrite Nat2Z.inj_succ, Z.mul_succ_l.
      unfold is_u32 in Hp, Hd.
      pose proof (Z.mul_nonneg_nonneg (Z.of_nat (length nows)) (p_dec p)
                    (Nat2Z.is_nonneg _) (proj1 Hd)).
      lia.
    + rewrite Hstep. unfold is_u32 in *. unfold U32_MAX in *. lia.
    + exact Hd.
    + rewrite Hb. exact Hrest.
Qed.

(** ** Moving the clock *)

Lemma u64_shift_diff a b d : u64 (u64 (a + d) - u64 (b + d)) = u64 (a - b).
Proof.
  unfold u64. rewrite Zminus_mod_idemp_l, Zminus_mod_idemp_r.
  f_equal. lia.
Qed.

Lemma s64_shift_diff a b d : s64 (u64 (a + d) - u64 (b + d)) = s64 (a - b).
Proof.
  unfold s64. fold (u64 (u64 (a + d) - u64 (b + d))). fold (u64 (a - b)).
  rewrite u64_shift_diff. reflexivity.
Qed.

Lemma u64_shift_add a s d : u64 (u64 (a + d) + s) = u64 (u64 (a + s) + d).
Proof.
  unfold u64. rewrite !Zplus_mod_idemp_l. f_equal. lia.
Qed.

Lemma set_drop_next_shift_time x y d v :
  x = u64 (y + d) ->
  set_drop_next x (shift_time d v) = shift_time d (set_drop_next y v).
Proof. intros ->. reflexivity. Qed.

Lemma cobalt_Newton_step_shift_time cache d v :
  cobalt_Newton_step cache (shift_time d v)
  = shift_time d (cobalt_Newton_step cache v).
Proof.
  unfold cobalt_Newton_step. cbn [count rec_inv_sqrt shift_time
    set_drop_next set_blue_timer].
  destruct ((count v <? REC_INV_SQRT_CACHE)
            && negb (cache_at cache (count v) =? 0)); reflexivity.
Qed.

Section ShiftFacts.

Context {H : Host}.

Lemma next_due_of_shift_time now d v :
  next_due_of (u64 (now + d)) (shift_time d v) = next_due_of now v.
Proof.
  unfold next_due_of, schedule_of.
  cbn [count drop_next shift_time set_drop_next set_blue_timer].
  rewrite s64_shift_diff. reflexivity.
Qed.

Lemma control_law_step_shift_time cache p d w :
  set_drop_next
    (cobalt_control_law
       (drop_next (cobalt_Newton_step cache (shift_time d w)))
       (interval p)
       (rec_inv_sqrt (cobalt_Newton_step cache (shift_time d w))))
    (cobalt_Newton_step cache (shift_time d w))
  = shift_time d
      (set_drop_next
         (cobalt_control_law (drop_next (cobalt_Newton_step cache w))
            (interval p) (rec_inv_sqrt (cobalt_Newton_step cache w)))
         (cobalt_Newton_step cache w)).
Proof.
  rewrite cobalt_Newton_step_shift_time.
  apply set_drop_next_shift_time.
  cbn [drop_next rec_inv_sqrt shift_time set_drop_next set_blue_timer].
  unfold cobalt_control_law. apply u64_shift_add.
Qed.

Lemma codel_step_back_shift_time cache p d v :
  codel_step_back cache p (shift_time d v)
  = shift_time d (codel_step_back cache p v).
Proof.
  unfold codel_step_back.
  apply (control_law_step_shift_time cache p d
           (set_count (u32 (count v - 1)) v)).
Qed.

Lemma codel_advance_shift_time cache p d v :
  codel_advance cache p (shift_time d v)
  = shift_time d (codel_advance cache p v).
Proof.
  unfold codel_advance.
  cbn [count shift_time set_drop_next set_blue_timer set_count].
  destruct (u32 (count v + 1) =? 0).
  - apply (control_law_step_shift_time cache p d
             (set_count (u32 (u32 (count v + 1) - 1))
                (set_count (u32 (count v + 1)) v))).
  - apply (control_law_step_shift_time cache p d
             (set_count (u32 (count v + 1)) v)).
Qed.

Lemma codel_transition_shift_time ot p now d v :
  codel_transition ot p (u64 (now + d)) (shift_time d v)
  = shift_time d (codel_transition ot p now v).
Proof.
  unfold codel_transition.
  cbn [dropping shift_time set_drop_next set_blue_timer].
  destruct ot, (dropping v); cbn [negb]; try reflexivity.
  - cbn [count shift_time set_drop_next set_blue_timer].
    destruct (count v =? 0); reflexivity.
  - change (set_dropping true (shift_time d v))
      with (shift_time d (set_dropping true v)).
    rewrite (set_drop_next_shift_time (u64 (u64 (now + d) + interval p))
               (u64 (now + interval p)) d (set_dropping true v))
      by apply u64_shift_add.
    cbn [count shift_time set_drop_next set_blue_timer set_dropping].
    destruct (count v =? 0); reflexivity.
Qed.

Lemma codel_resync_shift_time fuel cache p now d v next_due :
  codel_resync fuel cache p (u64 (now + d)) (shift_time d v) next_due
  = option_map (shift_time d) (codel_resync fuel cache p now v next_due).
Proof.
  revert v next_due. induction fuel as [|fuel IH]; intros v next_due.
  - destruct next_due; reflexivity.
  - destruct next_due; [|reflexivity]. simpl.
    rewrite codel_step_back_shift_time, next_due_of_shift_time.
    apply IH.
Qed.

Lemma blue_verdict_shift_time drop d v rnd :
  blue_verdict drop (shift_time d v) rnd
  = (let '(dr, v', rnd') := blue_verdict drop v rnd in
     (dr, shift_time d v', rnd')).
Proof.
  unfold blue_verdict.
  cbn [p_drop shift_time set_drop_next set_blue_timer].
  destruct (negb (p_drop v =? 0)); [|reflexivity].
  destruct (prandom_u32 rnd). reflexivity.
Qed.

End ShiftFacts.

(** X11: the three entry points see time only through differences modulo
    [2^64].  Moving [now], the packet's enqueue time and the two time stamps
    of the variables on by the same [d], across a wrap of the clock or not,
    gives the same verdict and the same variables moved on by [d]. *)
Theorem entry_points_commute_with_clock_shift :
  forall (H : Host) (fuel : nat) (cache : list Z) (v : cobalt_vars)
         (p : cobalt_params) (now d : Z) (skb skb' : sk_buff)
         (rnd : prandom_state),
    cobalt_get_enqueue_time skb' = u64 (cobalt_get_enqueue_time skb + d) ->
    INET_ECN_set_ce skb' = INET_ECN_set_ce skb ->
    cobalt_should_drop fuel cache (shift_time d v) p (u64 (now + d)) skb'
      rnd
    = match cobalt_should_drop fuel cache v p now skb rnd with
      | Some (drop, v', rnd') => Some (drop, shift_time d v', rnd')
      | None => None
      end
    /\ cobalt_queue_full (shift_time d v) p (u64 (now + d))
       = shift_time d (cobalt_queue_full v p now)
    /\ cobalt_queue_empty (shift_time d v) p (u64 (now + d))
       = shift_time d (cobalt_queue_empty v p now).
Proof.
  intros H fuel cache v p now d skb skb' rnd Henq Hce.
  split; [|split].
  - unfold cobalt_should_drop.
    assert (Hot : over_target_of p (u64 (now + d)) skb'
                  = over_target_of p now skb).
    { unfold over_target_of, sojourn_of. rewrite Henq, s64_shift_diff.
      reflexivity. }
    rewrite Hot, next_due_of_shift_time, Hce.
    change (set_ecn_marked false (shift_time d v))
      with (shift_time d (set_ecn_marked false v)).
    rewrite codel_transition_shift_time.
    set (v1 := codel_transition (over_target_of p now skb) p now
                 (set_ecn_marked false v)).
    change (dropping (shift_time d v1)) with (dropping v1).
    destruct (next_due_of now v && dropping v1).
    + change (set_ecn_marked (INET_ECN_set_ce skb) (shift_time d v1))
        with (shift_time d (set_ecn_marked (INET_ECN_set_ce skb) v1)).
      rewrite codel_advance_shift_time, blue_verdict_shift_time.
      destruct (blue_verdict (negb (INET_ECN_set_ce skb))
                  (codel_advance cache p
                     (set_ecn_marked (INET_ECN_set_ce skb) v1)) rnd)
        as [[dr v'] rnd'].
      reflexivity.
    + rewrite codel_resync_shift_time.
      destruct (codel_resync fuel cache p now v1 (next_due_of now v))
        as [v2|]; [|reflexivity].
      cbn [option_map]. rewrite blue_verdict_shift_time.
      destruct (blue_verdict false v2 rnd) as [[dr v'] rnd'].
      reflexivity.
  - unfold cobalt_queue_full.
    cbn [blue_timer p_drop shift_time set_drop_next set_blue_timer].
    rewrite u64_shift_diff.
    destruct (target p <? u64 (now - blue_timer v)); cbn;
      [destruct (u32 (p_drop v + p_inc p) <? p_inc p); cbn|];
      destruct (count v =? 0); reflexivity.
  - unfold cobalt_queue_empty.
    cbn [blue_timer p_drop shift_time set_drop_next set_blue_timer].
    rewrite u64_shift_diff.
    destruct (target p <? u64 (now - blue_timer v)); cbn;
      [destruct (p_drop v <? p_dec p)|]; reflexivity.
Qed.


(** ** The Newton step *)

Lemma shiftr_0 x : Z.shiftr x REC_INV_SQRT_SHIFT = x.
Proof. apply Z.shiftr_0_r. Qed.

Lemma shiftl_0 x : Z.shiftl x REC_INV_SQRT_SHIFT = x.
Proof. apply Z.shiftl_0_r. Qed.

Lemma u64_id x : 0 <= x < 2 ^ 64 -> u64 x = x.
Proof. intros Hx. apply Z.mod_small. exact Hx. Qed.

Lemma u32_idem x : u32 (u32 x) = u32 x.
Proof. unfold u32. apply Z.mod_mod. lia. Qed.

(** X12: the comment at line 139 holds.  When [count * invsqrt^2] does not
    exceed 3 in Q32 (so that the subtraction from [3 << 32] does not
    underflow), no 64-bit operation of the general path wraps: the product
    [val * invsqrt] stays below [2^64], and the new estimate is
    [((3 * 2^32 - count * (e * e / 2^32)) / 4 * e) / 2^31] for the old
    estimate [e], cut to 32 bits by the store into [rec_inv_sqrt]. *)
Theorem newton_general_without_overflow :
  forall (cnt est : Z),
    0 <= cnt ->
    cnt * (u32 est * u32 est / 2 ^ 32) <= 3 * 2 ^ 32 ->
    (3 * 2 ^ 32 - cnt * (u32 est * u32 est / 2 ^ 32)) / 4 * u32 est
    < 2 ^ 64
    /\ cobalt_Newton_general cnt est
       = u32 ((3 * 2 ^ 32 - cnt * (u32 est * u32 est / 2 ^ 32)) / 4
              * u32 est / 2 ^ 31).
Proof.
  intros cnt est Hc Hfit.
  pose proof (u32_range est) as He. unfold U32_MAX in He.
  set (e := u32 est) in *.
  assert (Hee : 0 <= e * e < 2 ^ 64) by nia.
  set (q := e * e / 2 ^ 32) in *.
  assert (Hq : 0 <= q < 2 ^ 32).
  { subst q. split; [apply Z.div_pos; lia|].
    apply Z.div_lt_upper_bound; lia. }
  assert (Hcq : 0 <= cnt * q) by nia.
  set (val := (3 * 2 ^ 32 - cnt * q) / 4) in *.
  assert (Hval : 0 <= val <= 3 * 2 ^ 30).
  { subst val. split; [apply Z.div_pos; lia|].
    apply Z.div_le_upper_bound; lia. }
  assert (Hprod : 0 <= val * e < 2 ^ 64) by nia.
  split; [lia|].
  unfold cobalt_Newton_general. cbv zeta.
  rewrite shiftl_0, shiftr_0, u32_idem.
  rewrite !Z.shiftr_div_pow2 by lia.
  change (Z.shiftl 3 32) with (3 * 2 ^ 32).
  change (2 ^ (32 - 2 + 1)) with (2 ^ 31). change (2 ^ 2) with 4.
  fold e.
  rewrite (u64_id (e * e)) by exact Hee. fold q.
  rewrite (u32_id q) by (unfold is_u32, U32_MAX; lia).
  rewrite (u64_id (cnt * q)) by lia.
  rewrite (u64_id (3 * 2 ^ 32 - cnt * q)) by lia. fold val.
  rewrite (u64_id (val * e)) by exact Hprod.
  reflexivity.
Qed.

Lemma cobalt_Newton_general_zero cnt : cobalt_Newton_general cnt 0 = 0.
Proof.
  unfold cobalt_Newton_general. cbv zeta.
  change (u32 (Z.shiftl (u32 0) REC_INV_SQRT_SHIFT)) with 0.
  rewrite Z.mul_0_r. reflexivity.
Qed.

Lemma cache_at_all_zero cache i :
  Forall (fun x => x = 0) cache -> cache_at cache i = 0.
Proof.
  intros Hall. unfold cache_at.
  destruct (cache !! Z.to_nat i) as [x|] eqn:Hx; [|reflexivity].
  cbn. exact (proj1 (Forall_lookup _ _) Hall _ _ Hx).
Qed.

Lemma cobalt_Newton_step_zero cache v :
  Forall (fun x => x = 0) cache ->
  rec_inv_sqrt v = 0 ->
  rec_inv_sqrt (cobalt_Newton_step cache v) = 0.
Proof.
  intros Hall Hz. unfold cobalt_Newton_step.
  rewrite (cache_at_all_zero cache (count v) Hall), andb_false_r.
  cbn. rewrite Hz. apply cobalt_Newton_general_zero.
Qed.

Section ZeroEstimate.

Context {H : Host}.

Variable cache : list Z.
Hypothesis cache_zero : Forall (fun x => x = 0) cache.

Lemma codel_step_back_zero p v :
  rec_inv_sqrt v = 0 -> rec_inv_sqrt (codel_step_back cache p v) = 0.
Proof.
  intros Hz. unfold codel_step_back. cbn [rec_inv_sqrt set_drop_next].
  apply cobalt_Newton_step_zero; [exact cache_zero|exact Hz].
Qed.

Lemma codel_advance_zero p v :
  rec_inv_sqrt v = 0 -> rec_inv_sqrt (codel_advance cache p v) = 0.
Proof.
  intros Hz. unfold codel_advance. cbn [rec_inv_sqrt set_drop_next].
  apply cobalt_Newton_step_zero; [exact cache_zero|].
  cbn [count set_count].
  destruct (u32 (count v + 1) =? 0); exact Hz.
Qed.

Lemma codel_resync_zero fuel p now v next_due v' :
  rec_inv_sqrt v = 0 ->
  codel_resync fuel cache p now v next_due = Some v' ->
  rec_inv_sqrt v' = 0.
Proof.
  revert v next_due. induction fuel as [|fuel IH]; intros v next_due Hz Hrun.
  - destruct next_due; [discriminate|]. simpl in Hrun. congruence.
  - destruct next_due; [|simpl in Hrun; congruence].
    simpl in Hrun. eapply IH; [|exact Hrun].
    apply codel_step_back_zero. exact Hz.
Qed.

Lemma cobalt_event_zero p e v rnd v' rnd' :
  rec_inv_sqrt v = 0 ->
  cobalt_event cache p e (v, rnd) = Some (v', rnd') ->
  rec_inv_sqrt v' = 0.
Proof.
  intros Hz Hstep. destruct e as [now skb|now|now];
    cbn [cobalt_event fst snd] in Hstep.
  - unfold cobalt_should_drop in Hstep.
    destruct (codel_transition_frame (over_target_of p now skb) p now
                (set_ecn_marked false v)) as (_ & _ & _ & Hr & _).
    cbn [rec_inv_sqrt set_ecn_marked] in Hr. rewrite Hz in Hr.
    set (v1 := codel_transition (over_target_of p now skb) p now
                 (set_ecn_marked false v)) in *.
    destruct (next_due_of now v && dropping v1).
    + pose proof (blue_verdict_vars (negb (INET_ECN_set_ce skb))
                    (codel_advance cache p
                       (set_ecn_marked (INET_ECN_set_ce skb) v1)) rnd)
        as Hv.
      destruct (blue_verdict (negb (INET_ECN_set_ce skb))
                  (codel_advance cache p
                     (set_ecn_marked (INET_ECN_set_ce skb) v1)) rnd)
        as [[dr v2] rnd2].
      simpl in Hv. injection Hstep as <- <-. subst v2.
      apply codel_advance_zero. exact Hr.
    + destruct (codel_resync (Z.to_nat (count v)) cache p now v1
                  (next_due_of now v)) as [v2|] eqn:Hrun; [|discriminate].
      pose proof (blue_verdict_vars false v2 rnd) as Hv.
      destruct (blue_verdict false v2 rnd) as [[dr v3] rnd3].
      simpl in Hv. injection Hstep as <- <-. subst v3.
      exact (codel_resync_zero _ p now v1 _ v2 Hr Hrun).
  - injection Hstep as <- <-.
    unfold cobalt_queue_full.
    destruct (target p <? u64 (now - blue_timer v)); cbn;
      [destruct (u32 (p_drop v + p_inc p) <? p_inc p); cbn|];
      destruct (count v =? 0); exact Hz.
  - injection Hstep as <- <-.
    unfold cobalt_queue_empty.
    destruct (target p <? u64 (now - blue_timer v)); cbn;
      [destruct (p_drop v <? p_dec p)|]; exact Hz.
Qed.

End ZeroEstimate.

(** X13: with a table that holds only zeros, as static storage does as long
    as the table has not been built, an estimate [rec_inv_sqrt] of 0 stays 0
    through every sequence of calls: the general Newton path maps 0 to 0,
    so the variables that [memset] has zeroed never get an estimate. *)
Theorem zero_estimate_is_stuck_without_table :
  forall (H : Host) (cache : list Z) (p : cobalt_params)
         (evs : list event) (v : cobalt_vars) (rnd : prandom_state),
    Forall (fun x => x = 0) cache ->
    wf_params p ->
    wf_vars v ->
    rec_inv_sqrt v = 0 ->
    exists v' rnd',
      cobalt_run cache p evs (v, rnd) = Some (v', rnd')
      /\ rec_inv_sqrt v' = 0.
Proof.
  intros H cache p evs.
  induction evs as [|e evs IH]; intros v rnd Hall Hp Hv Hz.
  - exists v, rnd. split; [reflexivity|exact Hz].
  - destruct (cobalt_event_saturating cache p e v rnd Hp Hv)
      as (v1 & rnd1 & Hstep & _ & Hv1).
    pose proof (cobalt_event_zero cache Hall p e v rnd v1 rnd1 Hz Hstep)
      as Hz1.
    destruct (IH v1 rnd1 Hall Hp Hv1 Hz1) as (v' & rnd' & Hrun & Hz').
    exists v', rnd'. cbn [cobalt_run]. rewrite Hstep. split; assumption.
Qed.

(** ** Initialisation *)

(** X14: [cobalt_vars_init] returns only when the guard cell is already
    set; it has then zeroed the variables and changed nothing in static
    storage.  The branch that builds the table never returns, and neither
    does [cobalt_cache_init] from a state whose guard cell is 0. *)
Theorem cobalt_vars_init_returns_only_when_guarded :
  forall (rev_is_rec : bool) (fuel : nat) (g g' : globals)
         (vars : cobalt_vars),
    cobalt_vars_init rev_is_rec fuel g = Some (vars, g') ->
    rev_cell0 rev_is_rec g <> 0
    /\ vars = vars_zero
    /\ g' = g
    /\ (forall fuel' g0,
          rev_cell0 rev_is_rec g0 = 0 ->
          cobalt_cache_init rev_is_rec fuel' g0 = None).
Proof.
  intros b fuel g g' vars Hret.
  assert (Hnz : rev_cell0 b g <> 0).
  { intros Hz. destruct (init_pair_diverges b fuel g Hz) as [Hv _].
    congruence. }
  split; [exact Hnz|].
  destruct fuel as [|fuel]; [discriminate|].
  rewrite cobalt_vars_init_later in Hret by exact Hnz.
  injection Hret as <- <-.
  split; [reflexivity|]. split; [reflexivity|].
  intros fuel' g0 Hz. apply (init_pair_diverges b fuel' g0 Hz).
Qed.

(** ** The table *)

Lemma built_table_accuracy cnt :
  1 <= cnt < REC_INV_SQRT_CACHE ->
  Z.abs (cache_at built_table cnt - Z.sqrt (2 ^ 64 / cnt)) <= 2 ^ 21
  /\ cache_at built_table cnt <= cache_at built_table (cnt - 1).
Proof.
  unfold REC_INV_SQRT_CACHE. intros Hc.
  assert (Hcases : cnt = 1 \/ cnt = 2 \/ cnt = 3 \/ cnt = 4
                   \/ cnt = 5 \/ cnt = 6 \/ cnt = 7 \/ cnt = 8 \/ cnt = 9
                   \/ cnt = 10 \/ cnt = 11 \/ cnt = 12 \/ cnt = 13
                   \/ cnt = 14 \/ cnt = 15) by lia.
  repeat (destruct Hcases as [->|Hcases];
          [vm_compute; split; discriminate|]).
  subst cnt. vm_compute. split; discriminate.
Qed.

(** X15: the table that the seed and the loop of [cobalt_cache_init] build
    is accurate and ordered: for every [cnt] from 1 to 15 the entry is
    within [2^21] (5 parts in 10000 of the range) of the integer square
    root of [2^64 / cnt], and no entry is larger than the one before it, so
    a higher [count] never gives a longer interval. *)
Theorem cache_table_is_accurate_and_ordered :
  forall (fuel : nat) (v : cobalt_vars) (g : globals),
    (15 <= fuel)%nat ->
    drop 1 (cobalt_rec_inv_sqrt_cache g) = replicate 15 0 ->
    exists g',
      cobalt_cache_build fuel v g = Some g'
      /\ forall cnt, 1 <= cnt < REC_INV_SQRT_CACHE ->
           Z.abs (cache_at (cobalt_rec_inv_sqrt_cache g') cnt
                  - Z.sqrt (2 ^ 64 / cnt)) <= 2 ^ 21
           /\ cache_at (cobalt_rec_inv_sqrt_cache g') cnt
              <= cache_at (cobalt_rec_inv_sqrt_cache g') (cnt - 1).
Proof.
  intros fuel v g Hfuel Htail.
  exists (set_rec_cache built_table g).
  split; [apply cobalt_cache_build_static; assumption|].
  intros cnt Hc. cbn [cobalt_rec_inv_sqrt_cache set_rec_cache].
  apply built_table_accuracy. exact Hc.
Qed.


(** ** The further properties at concrete inputs *)

Lemma is_u32_3 : is_u32 3.
Proof. unfold is_u32, U32_MAX. lia. Defined.

Lemma resync_loop_iterations_witness :
  is_u32 (count sim_stale_vars)
  /\ exists (n : nat) (v' : cobalt_vars),
       Z.of_nat n <= count sim_stale_vars
       /\ count v' = count sim_stale_vars - Z.of_nat n
       /\ next_due_of (MS2TIME 1000) v' = false
       /\ (forall fuel, (n <= fuel)%nat ->
             codel_resync (H := sim_host) fuel built_table sim_params
               (MS2TIME 1000) sim_stale_vars
               (next_due_of (MS2TIME 1000) sim_stale_vars)
             = Some v')
       /\ (forall fuel, (fuel < n)%nat ->
             codel_resync (H := sim_host) fuel built_table sim_params
               (MS2TIME 1000) sim_stale_vars
               (next_due_of (MS2TIME 1000) sim_stale_vars)
             = None).
Proof.
  split; [exact is_u32_3|].
  apply (resync_loop_iterations sim_host built_table sim_params
           (MS2TIME 1000) sim_stale_vars is_u32_3).
Defined.

Lemma packet_under_target_resynchronises_witness :
  is_u32 (count sim_stale_vars)
  /\ (Z.to_nat (count sim_stale_vars) <= 3)%nat
  /\ over_target_of (H := sim_host) sim_params (MS2TIME 1000)
       sim_quiet_packet = false
  /\ exists drop v' rnd',
       cobalt_should_drop (H := sim_host) 3 built_table sim_stale_vars
         sim_params (MS2TIME 1000) sim_quiet_packet [7]
       = Some (drop, v', rnd')
       /\ dropping v' = false
       /\ ecn_marked v' = false
       /\ 0 <= count v' <= count sim_stale_vars
       /\ next_due_of (MS2TIME 1000) v' = false
       /\ (p_drop sim_stale_vars = 0 -> drop = false /\ rnd' = [7]).
Proof.
  assert (Hfuel : (Z.to_nat (count sim_stale_vars) <= 3)%nat)
    by (simpl; lia).
  assert (Hot : over_target_of (H := sim_host) sim_params (MS2TIME 1000)
                  sim_quiet_packet = false) by (vm_compute; reflexivity).
  split; [exact is_u32_3|]. split; [exact Hfuel|]. split; [exact Hot|].
  apply (packet_under_target_resynchronises sim_host 3 built_table
           sim_stale_vars sim_params (MS2TIME 1000) sim_quiet_packet [7]
           is_u32_3 Hfuel Hot).
Defined.

Lemma should_drop_verdict_witness :
  is_u32 (count sim_low_vars)
  /\ (Z.to_nat (count sim_low_vars) <= 3)%nat
  /\ exists v' rnd',
       cobalt_should_drop (H := sim_host) 3 built_table sim_low_vars
         sim_params (MS2TIME 1) sim_second_packet [7; 8]
       = Some (true, v', rnd')
       /\ rnd' = [8].
Proof.
  assert (Hfuel : (Z.to_nat (count sim_low_vars) <= 3)%nat)
    by (simpl; lia).
  split; [exact is_u32_3|]. split; [exact Hfuel|].
  destruct (should_drop_verdict sim_host 3 built_table sim_low_vars
              sim_params (MS2TIME 1) sim_second_packet [7; 8]
              is_u32_3 Hfuel)
    as (drop & v' & rnd' & Hrun & Hdrop & Hrnd).
  exists v', rnd'. rewrite Hrun, Hdrop, Hrnd. split; reflexivity.
Defined.

Lemma entering_dropping_state_witness :
  is_u32 (count sim_stale_vars)
  /\ (Z.to_nat (count sim_stale_vars) <= 3)%nat
  /\ dropping sim_stale_vars = false
  /\ over_target_of (H := sim_host) sim_params (MS2TIME 1000)
       sim_slow_packet = true
  /\ next_due_of (MS2TIME 1000) sim_stale_vars = true
  /\ exists drop v' rnd',
       cobalt_should_drop (H := sim_host) 3 built_table sim_stale_vars
         sim_params (MS2TIME 1000) sim_slow_packet [7]
       = Some (drop, v', rnd')
       /\ dropping v' = true
       /\ count v' = 4.
Proof.
  assert (Hfuel : (Z.to_nat (count sim_stale_vars) <= 3)%nat)
    by (simpl; lia).
  assert (Hot : over_target_of (H := sim_host) sim_params (MS2TIME 1000)
                  sim_slow_packet = true) by (vm_compute; reflexivity).
  assert (Hnd : next_due_of (MS2TIME 1000) sim_stale_vars = true)
    by (vm_compute; reflexivity).
  split; [exact is_u32_3|]. split; [exact Hfuel|]. split; [reflexivity|].
  split; [exact Hot|]. split; [exact Hnd|].
  destruct (entering_dropping_state sim_host 3 built_table sim_stale_vars
              sim_params (MS2TIME 1000) sim_slow_packet [7]
              is_u32_3 Hfuel eq_refl Hot)
    as (drop & v' & rnd' & Hrun & Hd & Hdue & _).
  exists drop, v', rnd'. split; [exact Hrun|]. split; [exact Hd|].
  destruct (Hdue Hnd) as (_ & Hc & _). rewrite Hc. reflexivity.
Defined.

Lemma queue_full_makes_next_packet_due_witness :
  is_u32 (count vars_zero)
  /\ 0 <= s64 (MS2TIME 10 - MS2TIME 10)
  /\ over_target_of (H := sim_host) sim_params (MS2TIME 10)
       (sim_packet (MS2TIME 10) 6 true) = true
  /\ exists drop v' rnd',
       cobalt_should_drop (H := sim_host) 1 built_table
         (cobalt_queue_full vars_zero sim_params (MS2TIME 10)) sim_params
         (MS2TIME 10) (sim_packet (MS2TIME 10) 6 true) [7]
       = Some (drop, v', rnd')
       /\ ecn_marked v' = true
       /\ count v' = 2.
Proof.
  assert (Hfuel :
    (Z.to_nat (count (cobalt_queue_full vars_zero sim_params (MS2TIME 10)))
     <= 1)%nat) by (simpl; lia).
  assert (Hlate : 0 <= s64 (MS2TIME 10 - MS2TIME 10))
    by (vm_compute; discriminate).
  assert (Hot : over_target_of (H := sim_host) sim_params (MS2TIME 10)
                  (sim_packet (MS2TIME 10) 6 true) = true)
    by (vm_compute; reflexivity).
  split; [exact is_u32_0|]. split; [exact Hlate|]. split; [exact Hot|].
  destruct (queue_full_makes_next_packet_due sim_host 1 built_table
              vars_zero sim_params (MS2TIME 10) (MS2TIME 10)
              (sim_packet (MS2TIME 10) 6 true) [7] is_u32_0 Hfuel Hlate Hot)
    as (drop & v' & rnd' & Hrun & _ & He & _ & Hc).
  exists drop, v', rnd'. split; [exact Hrun|].
  split; [exact He|]. rewrite Hc. reflexivity.
Defined.

Lemma negative_sojourn_is_over_target_witness :
  sojourn_of (H := sim_host) 0 sim_future_packet < 0
  /\ 0 <= target sim_params < 2 ^ 63
  /\ over_target_of (H := sim_host) sim_params 0 sim_future_packet = true.
Proof.
  assert (Hneg : sojourn_of (H := sim_host) 0 sim_future_packet < 0)
    by (vm_compute; reflexivity).
  assert (Ht : 0 <= target sim_params < 2 ^ 63)
    by (split; vm_compute; [discriminate|reflexivity]).
  split; [exact Hneg|]. split; [exact Ht|].
  apply (negative_sojourn_is_over_target sim_host sim_params 0
           sim_future_packet Hneg Ht).
Defined.

Lemma blue_rate_limit_is_shared_witness :
  target sim_blue_params < u64 (MS2TIME 6 - blue_timer sim_low_vars)
  /\ u64 (MS2TIME 8 - MS2TIME 6) <= target sim_blue_params
  /\ p_drop (cobalt_queue_full
               (cobalt_queue_empty sim_low_vars sim_blue_params (MS2TIME 6))
               sim_blue_params (MS2TIME 8))
     = 0.
Proof.
  assert (Hupd : target sim_blue_params
                 < u64 (MS2TIME 6 - blue_timer sim_low_vars))
    by (vm_compute; reflexivity).
  assert (Hnear : u64 (MS2TIME 8 - MS2TIME 6) <= target sim_blue_params)
    by (vm_compute; discriminate).
  split; [exact Hupd|]. split; [exact Hnear|].
  destruct (blue_rate_limit_is_shared sim_low_vars sim_blue_params
              (MS2TIME 6) (MS2TIME 8) Hupd Hnear)
    as (_ & _ & (Hp & _) & _).
  rewrite Hp. reflexivity.
Defined.

Lemma blue_calls_are_idempotent_at_one_time_witness :
  0 <= target sim_blue_params
  /\ cobalt_queue_full
       (cobalt_queue_full sim_high_vars sim_blue_params (MS2TIME 6))
       sim_blue_params (MS2TIME 6)
     = cobalt_queue_full sim_high_vars sim_blue_params (MS2TIME 6).
Proof.
  assert (Ht : 0 <= target sim_blue_params) by (vm_compute; discriminate).
  split; [exact Ht|].
  apply (blue_calls_are_idempotent_at_one_time sim_high_vars
           sim_blue_params (MS2TIME 6) Ht).
Defined.

Lemma repeated_queue_full_saturates_witness :
  is_u32 (p_drop sim_high_vars)
  /\ is_u32 (p_inc sim_blue_params)
  /\ spaced_by_target sim_blue_params (blue_timer sim_high_vars)
       [MS2TIME 6; MS2TIME 12; MS2TIME 18]
  /\ p_drop (queue_full_at sim_blue_params
               [MS2TIME 6; MS2TIME 12; MS2TIME 18] sim_high_vars)
     = U32_MAX.
Proof.
  assert (Hp : is_u32 (p_drop sim_high_vars))
    by (unfold is_u32, U32_MAX; simpl; lia).
  assert (Hi : is_u32 (p_inc sim_blue_params))
    by (unfold is_u32, U32_MAX; simpl; lia).
  assert (Hsp : spaced_by_target sim_blue_params (blue_timer sim_high_vars)
                  [MS2TIME 6; MS2TIME 12; MS2TIME 18])
    by (repeat split; vm_compute; reflexivity).
  split; [exact Hp|]. split; [exact Hi|]. split; [exact Hsp|].
  rewrite (repeated_queue_full_saturates sim_blue_params
             [MS2TIME 6; MS2TIME 12; MS2TIME 18] sim_high_vars Hp Hi Hsp).
  reflexivity.
Defined.

Lemma repeated_queue_empty_floors_witness :
  is_u32 (p_drop sim_high_vars)
  /\ is_u32 (p_dec sim_blue_params)
  /\ spaced_by_target sim_blue_params (blue_timer sim_high_vars)
       [MS2TIME 6; MS2TIME 12; MS2TIME 18]
  /\ p_drop (queue_empty_at sim_blue_params
               [MS2TIME 6; MS2TIME 12; MS2TIME 18] sim_high_vars)
     = 0xc8000000.
Proof.
  assert (Hp : is_u32 (p_drop sim_high_vars))
    by (unfold is_u32, U32_MAX; simpl; lia).
  assert (Hd : is_u32 (p_dec sim_blue_params))
    by (unfold is_u32, U32_MAX; simpl; lia).
  assert (Hsp : spaced_by_target sim_blue_params (blue_timer sim_high_vars)
                  [MS2TIME 6; MS2TIME 12; MS2TIME 18])
    by (repeat split; vm_compute; reflexivity).
  split; [exact Hp|]. split; [exact Hd|]. split; [exact Hsp|].
  rewrite (repeated_queue_empty_floors sim_blue_params
             [MS2TIME 6; MS2TIME 12; MS2TIME 18] sim_high_vars Hp Hd Hsp).
  reflexivity.
Defined.

Lemma entry_points_commute_with_clock_shift_witness :
  cobalt_get_enqueue_time (H := sim_host)
    (sim_shift_packet sim_wrapping_shift sim_late_packet)
  = u64 (cobalt_get_enqueue_time (H := sim_host) sim_late_packet
         + sim_wrapping_shift)
  /\ u64 (MS2TIME 100 + sim_wrapping_shift) = MS2TIME 50
  /\ cobalt_should_drop (H := sim_host) 1 built_table
       (shift_time sim_wrapping_shift sim_dropping_vars) sim_params
       (u64 (MS2TIME 100 + sim_wrapping_shift))
       (sim_shift_packet sim_wrapping_shift sim_late_packet) []
     = match cobalt_should_drop (H := sim_host) 1 built_table
               sim_dropping_vars sim_params (MS2TIME 100) sim_late_packet []
       with
       | Some (drop, v', rnd') =>
           Some (drop, shift_time sim_wrapping_shift v', rnd')
       | None => None
       end.
Proof.
  split; [reflexivity|]. split; [vm_compute; reflexivity|].
  apply (entry_points_commute_with_clock_shift sim_host 1 built_table
           sim_dropping_vars sim_params (MS2TIME 100) sim_wrapping_shift
           sim_late_packet
           (sim_shift_packet sim_wrapping_shift sim_late_packet) []
           eq_refl eq_refl).
Defined.

Lemma newton_general_without_overflow_witness :
  0 <= 4
  /\ 4 * (u32 (2 ^ 31) * u32 (2 ^ 31) / 2 ^ 32) <= 3 * 2 ^ 32
  /\ cobalt_Newton_general 4 (2 ^ 31) = 2 ^ 31.
Proof.
  assert (Hc : 0 <= 4) by lia.
  assert (Hfit : 4 * (u32 (2 ^ 31) * u32 (2 ^ 31) / 2 ^ 32) <= 3 * 2 ^ 32)
    by (vm_compute; discriminate).
  split; [exact Hc|]. split; [exact Hfit|].
  destruct (newton_general_without_overflow 4 (2 ^ 31) Hc Hfit)
    as [_ Heq].
  rewrite Heq. reflexivity.
Defined.

Lemma zero_estimate_is_stuck_without_table_witness :
  Forall (fun x => x = 0) static_table
  /\ wf_params sim_blue_params
  /\ wf_vars vars_zero
  /\ rec_inv_sqrt vars_zero = 0
  /\ exists v' rnd',
       cobalt_run static_table sim_blue_params sim_events (vars_zero, [7])
       = Some (v', rnd')
       /\ rec_inv_sqrt v' = 0.
Proof.
  assert (Hall : Forall (fun x => x = 0) static_table)
    by (repeat constructor).
  assert (Hp : wf_params sim_blue_params)
    by (split; unfold is_u32, U32_MAX; simpl; lia).
  assert (Hv : wf_vars vars_zero) by (split; exact is_u32_0).
  split; [exact Hall|]. split; [exact Hp|]. split; [exact Hv|].
  split; [reflexivity|].
  apply (zero_estimate_is_stuck_without_table sim_host static_table
           sim_blue_params sim_events vars_zero [7] Hall Hp Hv eq_refl).
Defined.

Lemma cobalt_vars_init_returns_only_when_guarded_witness :
  cobalt_vars_init false 1 sim_guarded_globals
  = Some (vars_zero, sim_guarded_globals)
  /\ rev_cell0 false sim_guarded_globals <> 0.
Proof.
  split; [reflexivity|].
  apply (cobalt_vars_init_returns_only_when_guarded false 1
           sim_guarded_globals sim_guarded_globals vars_zero eq_refl).
Defined.

Lemma cache_table_is_accurate_and_ordered_witness :
  (15 <= 15)%nat
  /\ drop 1 (cobalt_rec_inv_sqrt_cache boot_globals) = replicate 15 0
  /\ exists g',
       cobalt_cache_build 15 vars_zero boot_globals = Some g'
       /\ cache_at (cobalt_rec_inv_sqrt_cache g') 4
          <= cache_at (cobalt_rec_inv_sqrt_cache g') 3.
Proof.
  split; [apply Nat.le_refl|]. split; [reflexivity|].
  destruct (cache_table_is_accurate_and_ordered 15 vars_zero boot_globals
              (Nat.le_refl 15) eq_refl) as (g' & Hbuild & Hentries).
  exists g'. split; [exact Hbuild|].
  destruct (Hentries 4) as [_ Hord]; [unfold REC_INV_SQRT_CACHE; lia|].
  exact Hord.
Defined.
